(** * syncr: configuration validation, rclone arguments and the backup run

    A shallow embedding of the TypeScript sources of syncr
    (src/config.ts, src/rclone.ts, src/backup.ts, src/logger.ts,
    src/cli.ts, src/types.ts) and the properties of its specification
    that hold, or fail, on that code. *)

From Stdlib Require Import ZArith NArith List String Ascii Bool Lia DecimalString.
Import ListNotations.

Set Warnings "-register-all".

(** ** JavaScript strings

    A JavaScript string is a sequence of UTF-16 code units; a code unit is
    kept as its number.  String literals of the source are written with
    [js]. *)

Definition jsstring := list N.

Definition js (s : string) : jsstring := map N_of_ascii (list_ascii_of_string s).

Fixpoint jsstring_eqb (a b : jsstring) : bool :=
  match a, b with
  | [], [] => true
  | x :: a', y :: b' => N.eqb x y && jsstring_eqb a' b'
  | _, _ => false
  end.

(** [`${n}`] for an integral number. *)
Definition numToString (n : Z) : jsstring := js (NilZero.string_of_int (Z.to_int n)).

Arguments js s : simpl never.
Arguments numToString n : simpl never.

(** WhiteSpace and LineTerminator code points of ECMAScript, the characters
    [String.prototype.trim] strips. *)
Definition isWhiteSpace (c : N) : bool :=
  ((c =? 9) || (c =? 10) || (c =? 11) || (c =? 12) || (c =? 13) || (c =? 32)
   || (c =? 160) || (c =? 5760) || ((8192 <=? c) && (c <=? 8202))
   || (c =? 8232) || (c =? 8233) || (c =? 8239) || (c =? 8287)
   || (c =? 12288) || (c =? 65279))%N.

Fixpoint dropWhile {A} (p : A -> bool) (l : list A) : list A :=
  match l with
  | [] => []
  | x :: l' => if p x then dropWhile p l' else l
  end.

Definition trimStart (s : jsstring) : jsstring := dropWhile isWhiteSpace s.
Definition trimEnd (s : jsstring) : jsstring := rev (dropWhile isWhiteSpace (rev s)).
Definition trim (s : jsstring) : jsstring := trimEnd (trimStart s).

Definition isEmpty (s : jsstring) : bool :=
  match s with [] => true | _ => false end.

(** ** Outcomes of a call: a value, a thrown [Error] (its message), or
    [process.exit(code)]. *)

Inductive Outcome (A : Type) : Type :=
| Ret (a : A)
| Throw (message : jsstring)
| Exit (code : Z).

Arguments Ret {A} a.
Arguments Throw {A} message.
Arguments Exit {A} code.

Definition bindO {A B} (o : Outcome A) (k : A -> Outcome B) : Outcome B :=
  match o with
  | Ret a => k a
  | Throw e => Throw e
  | Exit c => Exit c
  end.

(** ** Parsed JSON, the [unknown] data the validator receives from
    [JSON.parse]. *)

Inductive JValue : Type :=
| JNull
| JBool (b : bool)
| JNum (n : Z)
| JStr (s : jsstring)
| JArr (items : list JValue)
| JObj (fields : list (jsstring * JValue)).

Inductive JsType := TUndefined | TObject | TBoolean | TNumber | TString.

Definition JsType_eqb (a b : JsType) : bool :=
  match a, b with
  | TUndefined, TUndefined | TObject, TObject | TBoolean, TBoolean
  | TNumber, TNumber | TString, TString => true
  | _, _ => false
  end.

(** [typeof v]; a missing property is [None] and has type undefined. *)
Definition typeof (v : option JValue) : JsType :=
  match v with
  | None => TUndefined
  | Some JNull => TObject
  | Some (JBool _) => TBoolean
  | Some (JNum _) => TNumber
  | Some (JStr _) => TString
  | Some (JArr _) => TObject
  | Some (JObj _) => TObject
  end.

Definition isNull (v : option JValue) : bool :=
  match v with Some JNull => true | _ => false end.

Fixpoint lookupField (key : jsstring) (fields : list (jsstring * JValue)) : option JValue :=
  match fields with
  | [] => None
  | (k, v) :: rest => if jsstring_eqb k key then Some v else lookupField key rest
  end.

(** [v.key] for a named (non-index) key of a value whose [typeof] is
    object: an own property of a record, undefined on an array. *)
Definition getProp (v : JValue) (key : jsstring) : option JValue :=
  match v with
  | JObj fields => lookupField key fields
  | _ => None
  end.

Definition isArray (v : option JValue) : bool :=
  match v with Some (JArr _) => true | _ => false end.

(** ** types.ts *)

Module Types.

Record BackupSource := {
  name : jsstring;
  path : jsstring;
  enabled : bool
}.

Record MachineConfig := {
  machine_name : jsstring;
  sources : list BackupSource
}.

Record BackupResult := {
  source : BackupSource;
  success : bool;
  error : option jsstring;
  duration : option Z
}.

Record BackupSummary := {
  machine : jsstring;
  startTime : Z;
  endTime : Z;
  totalSources : Z;
  successCount : Z;
  failCount : Z;
  skippedCount : Z;
  results : list BackupResult;
  dryRun : bool
}.

Inductive LogLevel := INFO | SUCCESS | WARN | ERROR.

Record CliOptions := {
  opt_dryRun : bool;
  opt_verbose : bool;
  opt_listOnly : bool;
  opt_init : bool;
  opt_checkTools : bool
}.

Record ToolCheck := {
  allGood : bool;
  rcloneInstalled : bool;
  rclonePath : option jsstring;
  rcloneVersion : option jsstring
}.

Record PathConfig := {
  backupRoot : jsstring;
  configDir : jsstring;
  machineConfigsDir : jsstring;
  logsDir : jsstring;
  backupsDir : jsstring;
  filtersFile : jsstring
}.

End Types.
Import Types.


(** ** logger.ts: the text of a log line

    [formatTimestamp] and [getDateString] read the local time off
    [new Date()]; here they take its fields, as [getFullYear], [getMonth]
    (from 0), [getDate], [getHours], [getMinutes] and [getSeconds] give
    them. *)

Module LoggerFormat.

Record LocalTime := {
  fullYear : Z;
  month : Z;
  date : Z;
  hours : Z;
  minutes : Z;
  seconds : Z
}.

(** [s.padStart(targetLength, padString)]: [padString] repeated and cut to
    the missing length, nothing when [s] is long enough or [padString] is
    empty. *)
Definition padStart (targetLength : nat) (padString s : jsstring) : jsstring :=
  let missing := (targetLength - List.length s)%nat in
  firstn missing (List.concat (repeat padString missing)) ++ s.

Definition formatTimestamp (now : LocalTime) : jsstring :=
  let year := fullYear now in
  let month := padStart 2 (js "0") (numToString (month now + 1)) in
  let day := padStart 2 (js "0") (numToString (date now)) in
  let hours := padStart 2 (js "0") (numToString (hours now)) in
  let minutes := padStart 2 (js "0") (numToString (minutes now)) in
  let seconds := padStart 2 (js "0") (numToString (seconds now)) in
  numToString year ++ js "-" ++ month ++ js "-" ++ day ++ js " "
  ++ hours ++ js ":" ++ minutes ++ js ":" ++ seconds.

Definition getDateString (now : LocalTime) : jsstring :=
  let year := fullYear now in
  let month := padStart 2 (js "0") (numToString (month now + 1)) in
  let day := padStart 2 (js "0") (numToString (date now)) in
  numToString year ++ month ++ day.

Definition levelName (level : LogLevel) : jsstring :=
  match level with
  | INFO => js "INFO"
  | SUCCESS => js "SUCCESS"
  | WARN => js "WARN"
  | ERROR => js "ERROR"
  end.

(** The ANSI colour codes, [\x1b] being code unit 27. *)
Definition color_reset : jsstring := 27%N :: js "[0m".
Definition color_red : jsstring := 27%N :: js "[31m".
Definition color_green : jsstring := 27%N :: js "[32m".
Definition color_yellow : jsstring := 27%N :: js "[33m".
Definition color_white : jsstring := 27%N :: js "[37m".

Definition getColor (level : LogLevel) : jsstring :=
  match level with
  | ERROR => color_red
  | WARN => color_yellow
  | SUCCESS => color_green
  | _ => color_white
  end.

(** [`[${timestamp}] [${level}] ${message}`], the line appended to the log
    file, and the coloured line printed on the console. *)
Definition logMessage (now : LocalTime) (level : LogLevel) (message : jsstring) : jsstring :=
  js "[" ++ formatTimestamp now ++ js "] [" ++ levelName level ++ js "] " ++ message.

Definition consoleLine (now : LocalTime) (level : LogLevel) (message : jsstring) : jsstring :=
  getColor level ++ logMessage now level message ++ color_reset.

(** [String(n).padStart(2, '0')], as every field but the year is written. *)
Definition pad2 (n : Z) : jsstring := padStart 2 (js "0") (numToString n).

(** The number two decimal digits write, for reading a padded field back. *)
Definition twoDigits (s : jsstring) : Z :=
  match s with
  | [a; b] => ((Z.of_N a - 48) * 10 + (Z.of_N b - 48))%Z
  | _ => (-1)%Z
  end.

(** Month, day and time of day within their ranges. *)
Definition validTime (t : LocalTime) : Prop :=
  (0 <= month t <= 11 /\ 1 <= date t <= 31 /\ 0 <= hours t <= 23
   /\ 0 <= minutes t <= 59 /\ 0 <= seconds t <= 59)%Z.

End LoggerFormat.

(** ** The host: Node's [process], [os], [path], [fs], [child_process],
    [JSON], [Date] and [console].

    [OS] is the state of the machine (file system, clock, processes).
    Nothing is assumed about it: every operation may change it as the real
    one does.  The working directory, the host name and the platform do not
    change during a run (the program never calls [process.chdir]). *)

Inductive SpawnOutcome :=
| SpawnClosed (code : option Z) (stderrData : jsstring)
| SpawnError (message : jsstring).

Record SpawnSyncResult := {
  status : option Z;
  stdout : option jsstring
}.

Class Host (OS : Type) := {
  cwd : jsstring;
  hostname : jsstring;
  win32 : bool;
  join : list jsstring -> jsstring;
  JSON_parse : jsstring -> JValue + jsstring;
  JSON_stringify : JValue -> jsstring;
  (* capture group 1 of /rclone\s+(v[\d.]+)/ *)
  versionMatch : jsstring -> option jsstring;
  Date_now : OS -> Z;
  (* the local-time fields of new Date() *)
  Date_local : OS -> LoggerFormat.LocalTime;
  fs_existsSync : jsstring -> OS -> bool;
  (* mkdirSync(p, { recursive: true }); [Some e]: throws e *)
  fs_mkdirSync : jsstring -> OS -> option jsstring * OS;
  fs_readFileSync : jsstring -> OS -> jsstring + jsstring;
  fs_writeFileSync : jsstring -> jsstring -> OS -> option jsstring * OS;
  fs_appendFileSync : jsstring -> jsstring -> OS -> option jsstring * OS;
  cp_spawnSync : jsstring -> list jsstring -> OS -> SpawnSyncResult * OS;
  (* spawn(command, args, { stdio }) awaited until 'close' or 'error';
     the flag is stdio === 'inherit' *)
  cp_spawn : jsstring -> list jsstring -> bool -> OS -> SpawnOutcome * OS;
  (* console.log of one line of text *)
  console_out : jsstring -> OS -> OS
}.

(** What a call did to the outside, in order.  [EvLog time level message]
    is the [console.log] of the line [Logger.log] prints for [message] at
    [level], stamped with [time]: [LoggerFormat.consoleLine time level
    message]. *)
Inductive Event :=
| EvLog (time : LoggerFormat.LocalTime) (level : LogLevel) (message : jsstring)
| EvConsoleError (message : jsstring)
| EvMkdir (path : jsstring)
| EvWriteFile (path content : jsstring)
| EvAppendFile (path content : jsstring)
| EvSpawnSync (command : jsstring) (args : list jsstring)
| EvSpawn (command : jsstring) (args : list jsstring).

Record Run (OS A : Type) := {
  outcome : Outcome A;
  host : OS;
  events : list Event
}.

Arguments outcome {OS A} r.
Arguments host {OS A} r.
Arguments events {OS A} r.

Definition M (OS A : Type) : Type := OS -> Run OS A.

Definition ret {OS A} (a : A) : M OS A :=
  fun os => {| outcome := Ret a; host := os; events := [] |}.

Definition throw {OS A} (message : jsstring) : M OS A :=
  fun os => {| outcome := Throw message; host := os; events := [] |}.

Definition process_exit {OS A} (code : Z) : M OS A :=
  fun os => {| outcome := Exit code; host := os; events := [] |}.

Definition bind {OS A B} (m : M OS A) (k : A -> M OS B) : M OS B :=
  fun os =>
    match m os with
    | {| outcome := Ret a; host := os1; events := evs1 |} =>
        match k a os1 with
        | {| outcome := o; host := os2; events := evs2 |} =>
            {| outcome := o; host := os2; events := evs1 ++ evs2 |}
        end
    | {| outcome := Throw e; host := os1; events := evs1 |} =>
        {| outcome := Throw e; host := os1; events := evs1 |}
    | {| outcome := Exit c; host := os1; events := evs1 |} =>
        {| outcome := Exit c; host := os1; events := evs1 |}
    end.

(** [try { m } catch (err) { handler(err.message) }] *)
Definition tryCatch {OS A} (m : M OS A) (handler : jsstring -> M OS A) : M OS A :=
  fun os =>
    match m os with
    | {| outcome := Throw e; host := os1; events := evs1 |} =>
        match handler e os1 with
        | {| outcome := o; host := os2; events := evs2 |} =>
            {| outcome := o; host := os2; events := evs1 ++ evs2 |}
        end
    | r => r
    end.

Definition liftO {OS A} (o : Outcome A) : M OS A :=
  fun os => {| outcome := o; host := os; events := [] |}.

Declare Scope js_scope.
Delimit Scope js_scope with js.
Notation "x <- m ;; k" := (bind m (fun x => k))
  (at level 61, m at next level, right associativity) : js_scope.
Notation "m ;; k" := (bind m (fun _ => k))
  (at level 61, right associativity) : js_scope.
Open Scope js_scope.

(** The events of one kind, in order. *)
Definition spawns (evs : list Event) : list (jsstring * list jsstring) :=
  flat_map (fun e => match e with EvSpawn c a => [(c, a)] | _ => [] end) evs.

Definition writes (evs : list Event) : list (jsstring * jsstring) :=
  flat_map (fun e => match e with EvWriteFile p c => [(p, c)] | _ => [] end) evs.

Definition mkdirs (evs : list Event) : list jsstring :=
  flat_map (fun e => match e with EvMkdir p => [p] | _ => [] end) evs.

Definition appends (evs : list Event) : list (jsstring * jsstring) :=
  flat_map (fun e => match e with EvAppendFile p c => [(p, c)] | _ => [] end) evs.

Section Primitives.
Context {OS : Type} `{Host OS}.

Definition now : M OS Z :=
  fun os => {| outcome := Ret (Date_now os); host := os; events := [] |}.

(** [new Date()], as far as its local-time fields go. *)
Definition newDate : M OS LoggerFormat.LocalTime :=
  fun os => {| outcome := Ret (Date_local os); host := os; events := [] |}.

Definition existsSync (p : jsstring) : M OS bool :=
  fun os => {| outcome := Ret (fs_existsSync p os); host := os; events := [] |}.

Definition mkdirSync (p : jsstring) : M OS unit :=
  fun os =>
    let '(err, os') := fs_mkdirSync p os in
    {| outcome := match err with None => Ret tt | Some e => Throw e end;
       host := os'; events := [EvMkdir p] |}.

Definition readFileSync (p : jsstring) : M OS jsstring :=
  fun os =>
    {| outcome := match fs_readFileSync p os with inl c => Ret c | inr e => Throw e end;
       host := os; events := [] |}.

Definition writeFileSync (p content : jsstring) : M OS unit :=
  fun os =>
    let '(err, os') := fs_writeFileSync p content os in
    {| outcome := match err with None => Ret tt | Some e => Throw e end;
       host := os'; events := [EvWriteFile p content] |}.

Definition appendFileSync (p content : jsstring) : M OS unit :=
  fun os =>
    let '(err, os') := fs_appendFileSync p content os in
    {| outcome := match err with None => Ret tt | Some e => Throw e end;
       host := os'; events := [EvAppendFile p content] |}.

Definition spawnSync (command : jsstring) (args : list jsstring) : M OS SpawnSyncResult :=
  fun os =>
    let '(res, os') := cp_spawnSync command args os in
    {| outcome := Ret res; host := os'; events := [EvSpawnSync command args] |}.

Definition spawn (command : jsstring) (args : list jsstring) (inherit : bool)
  : M OS SpawnOutcome :=
  fun os =>
    let '(res, os') := cp_spawn command args inherit os in
    {| outcome := Ret res; host := os'; events := [EvSpawn command args] |}.

Definition console_error (message : jsstring) : M OS unit :=
  fun os => {| outcome := Ret tt; host := os; events := [EvConsoleError message] |}.

(** [console.log] of the coloured line for [message]. *)
Definition console_log (time : LoggerFormat.LocalTime) (level : LogLevel)
  (message : jsstring) : M OS unit :=
  fun os =>
    {| outcome := Ret tt;
       host := console_out (LoggerFormat.consoleLine time level message) os;
       events := [EvLog time level message] |}.

End Primitives.

(** ** config.ts *)

Module Config.

Definition stringOf (v : option JValue) : jsstring :=
  match v with Some (JStr s) => s | _ => [] end.

Definition boolOf (v : option JValue) : bool :=
  match v with Some (JBool b) => b | _ => false end.

Definition validateSource (source : JValue) (index : nat) : Outcome BackupSource :=
  if negb (JsType_eqb (typeof (Some source)) TObject) || isNull (Some source) then
    Throw (js "Source at index " ++ numToString (Z.of_nat index) ++ js " is not an object")
  else
    let s := source in
    if negb (JsType_eqb (typeof (getProp s (js "name"))) TString)
       || isEmpty (trim (stringOf (getProp s (js "name")))) then
      Throw (js "Source at index " ++ numToString (Z.of_nat index)
                ++ js " missing valid 'name' field")
    else if negb (JsType_eqb (typeof (getProp s (js "path"))) TString)
            || isEmpty (trim (stringOf (getProp s (js "path")))) then
      Throw (js "Source at index " ++ numToString (Z.of_nat index)
                ++ js " missing valid 'path' field")
    else if negb (JsType_eqb (typeof (getProp s (js "enabled"))) TBoolean) then
      Throw (js "Source at index " ++ numToString (Z.of_nat index)
                ++ js " missing valid 'enabled' field")
    else
      Ret {| name := trim (stringOf (getProp s (js "name")));
             path := trim (stringOf (getProp s (js "path")));
             enabled := boolOf (getProp s (js "enabled")) |}.

(** [items.map((s, i) => validateSource(s, i))], from index [i] on: the
    elements are visited in order and the first throw ends the call. *)
Fixpoint mapValidateSource (items : list JValue) (i : nat) : Outcome (list BackupSource) :=
  match items with
  | [] => Ret []
  | s :: rest =>
      bindO (validateSource s i) (fun v =>
      bindO (mapValidateSource rest (S i)) (fun vs =>
      Ret (v :: vs)))
  end.

Definition itemsOf (v : option JValue) : list JValue :=
  match v with Some (JArr xs) => xs | _ => [] end.

Definition validateConfig (data : JValue) : Outcome MachineConfig :=
  if negb (JsType_eqb (typeof (Some data)) TObject) || isNull (Some data) then
    Throw (js "Config must be a valid JSON object")
  else
    let config := data in
    if negb (JsType_eqb (typeof (getProp config (js "machine_name"))) TString) then
      Throw (js "Config missing 'machine_name' field")
    else if negb (isArray (getProp config (js "sources"))) then
      Throw (js "Config missing 'sources' array")
    else
      bindO (mapValidateSource (itemsOf (getProp config (js "sources"))) 0) (fun sources =>
      Ret {| machine_name := stringOf (getProp config (js "machine_name"));
             sources := sources |}).

Section Effects.
Context {OS : Type} `{Host OS}.

Definition getBackupRoot : jsstring := cwd.

Definition getPaths : PathConfig :=
  let backupRoot := getBackupRoot in
  {| backupRoot := backupRoot;
     configDir := join [backupRoot; js "config"];
     machineConfigsDir := join [backupRoot; js "config"; js "machine-configs"];
     logsDir := join [backupRoot; js "logs"];
     backupsDir := join [backupRoot; js "backups"];
     filtersFile := join [backupRoot; js "config"; js "filters.txt"] |}.

Definition getMachineName : jsstring := hostname.

Definition getMachineConfigPath : jsstring :=
  let paths := getPaths in
  join [machineConfigsDir paths; getMachineName ++ js ".json"].

Definition loadConfig (configPath : option jsstring) : M OS MachineConfig :=
  let path := match configPath with Some p => p | None => getMachineConfigPath end in
  ex <- existsSync path ;;
  if negb ex then
    throw (js "Configuration file not found: " ++ path ++ [10%N]
           ++ js "Run with --init flag to create initial configuration")
  else
    content <- readFileSync path ;;
    data <- match JSON_parse content with
            | inl d => ret d
            | inr e => throw (js "Failed to parse configuration file: " ++ path
                              ++ [10%N] ++ e)
            end ;;
    liftO (validateConfig data).

(** The object literal [template] of [initializeConfig]. *)
Definition template : MachineConfig :=
  {| machine_name := getMachineName;
     sources :=
       [ {| name := js "ExampleProject";
            path := if win32 then js "C:\Path\To\Project\_docs"
                    else js "/path/to/project/_docs";
            enabled := false |} ] |}.

(** A [MachineConfig] as the JSON value [JSON.stringify] serialises. *)
Definition sourceToJSON (s : BackupSource) : JValue :=
  JObj [ (js "name", JStr (name s)); (js "path", JStr (path s));
         (js "enabled", JBool (enabled s)) ].

Definition configToJSON (c : MachineConfig) : JValue :=
  JObj [ (js "machine_name", JStr (machine_name c));
         (js "sources", JArr (map sourceToJSON (sources c))) ].

Definition initializeConfig : M OS jsstring :=
  let paths := getPaths in
  let machineName := getMachineName in
  let configPath := getMachineConfigPath in
  dirExists <- existsSync (machineConfigsDir paths) ;;
  (if negb dirExists then mkdirSync (machineConfigsDir paths) else ret tt) ;;
  fileExists <- existsSync configPath ;;
  if fileExists then
    ret configPath
  else
    writeFileSync configPath (JSON_stringify (configToJSON template)) ;;
    ret configPath.

Definition validateBackupRoot : M OS bool :=
  let paths := getPaths in
  existsSync (backupRoot paths).

End Effects.

Arguments loadConfig : simpl never.
Arguments initializeConfig : simpl never.
Arguments validateBackupRoot : simpl never.

Definition getEnabledSources (config : MachineConfig) : list BackupSource :=
  filter (fun s => enabled s) (sources config).

End Config.

(** ** logger.ts: the logger

    [Logger.log] stamps the message, prints the coloured line on the
    console and appends the plain line to the day's log file, whose
    directory it creates when missing.  [mkdirSync] and [appendFileSync]
    may throw, and nothing in the logger catches: a log call can throw.
    The switches [writeToConsole] and [writeToLog] keep their initial value
    [true]: nothing in the program calls [configure].  Each [new Date()] is
    a reading of the host's clock, and the functions that format it are
    those of [LoggerFormat]. *)

Module Logger.
Section Effects.
Context {OS : Type} `{Host OS}.

(** [getLogFilePath] for the date [now] its [getDateString] reads. *)
Definition getLogFilePath (now : LoggerFormat.LocalTime) : jsstring :=
  let paths := Config.getPaths in
  join [logsDir paths; js "syncr_" ++ LoggerFormat.getDateString now ++ js ".log"].

Definition ensureLogDir : M OS unit :=
  let paths := Config.getPaths in
  found <- existsSync (logsDir paths) ;;
  if negb found then mkdirSync (logsDir paths) else ret tt.

Definition writeToFile (message : jsstring) : M OS unit :=
  ensureLogDir ;;
  today <- newDate ;;
  let logFile := getLogFilePath today in
  appendFileSync logFile (message ++ [10%N]).

Definition log (message : jsstring) (level : LogLevel) : M OS unit :=
  stamp <- newDate ;;
  let logMessage := LoggerFormat.logMessage stamp level message in
  console_log stamp level message ;;
  writeToFile logMessage.

Definition info (message : jsstring) : M OS unit := log message INFO.
Definition success (message : jsstring) : M OS unit := log message SUCCESS.
Definition warn (message : jsstring) : M OS unit := log message WARN.
Definition error (message : jsstring) : M OS unit := log message ERROR.

Definition separator (title : option jsstring) : M OS unit :=
  match title with
  | Some t => if isEmpty t then info (js "===") else info (js "=== " ++ t ++ js " ===")
  | None => info (js "===")
  end.

End Effects.

Arguments log : simpl never.

End Logger.

(** ** rclone.ts *)

Module Rclone.
Import Config.

Fixpoint joinWith (sep : jsstring) (parts : list jsstring) : jsstring :=
  match parts with
  | [] => []
  | [p] => p
  | p :: rest => p ++ sep ++ joinWith sep rest
  end.

(** [s.split('\n')[0]] *)
Fixpoint firstLine (s : jsstring) : jsstring :=
  match s with
  | [] => []
  | c :: rest => if N.eqb c 10 then [] else c :: firstLine rest
  end.

Definition isZero (code : option Z) : bool :=
  match code with Some c => Z.eqb c 0 | None => false end.

Definition truthy (s : option jsstring) : bool :=
  match s with Some (_ :: _) => true | _ => false end.

Definition textOf (s : option jsstring) : jsstring :=
  match s with Some t => t | None => [] end.

Definition codeToString (code : option Z) : jsstring :=
  match code with Some c => numToString c | None => js "null" end.

Section Effects.
Context {OS : Type} `{Host OS}.

Definition findRclone : M OS (option jsstring) :=
  let command := if win32 then js "where" else js "which" in
  result <- spawnSync command [js "rclone"] ;;
  if isZero (status result) && truthy (stdout result) then
    ret (Some (firstLine (trim (textOf (stdout result)))))
  else
    ret None.

Definition getRcloneVersion : M OS (option jsstring) :=
  result <- spawnSync (js "rclone") [js "version"] ;;
  if isZero (status result) && truthy (stdout result) then
    match versionMatch (textOf (stdout result)) with
    | Some v => ret (Some v)
    | None => ret (Some (firstLine (textOf (stdout result))))
    end
  else
    ret None.

Definition checkRclone : M OS ToolCheck :=
  rclonePath <- findRclone ;;
  let rcloneInstalled := match rclonePath with Some _ => true | None => false end in
  rcloneVersion <- (if rcloneInstalled then getRcloneVersion else ret None) ;;
  ret {| allGood := rcloneInstalled;
         rcloneInstalled := rcloneInstalled;
         rclonePath := rclonePath;
         rcloneVersion := rcloneVersion |}.

Definition buildRcloneArgs (sourcePath destPath : jsstring) (dryRun verbose : bool)
  : M OS (list jsstring) :=
  let paths := getPaths in
  let args := [js "sync"; sourcePath; destPath; js "--checksum"; js "--delete-during"] in
  let args := if dryRun then args ++ [js "--dry-run"] else args in
  let args := if verbose then (args ++ [js "--verbose"]) ++ [js "--progress"] else args in
  filtersExist <- existsSync (filtersFile paths) ;;
  let args := if filtersExist then args ++ [js "--filter-from"; filtersFile paths]
              else args in
  ret args.

Definition executeRclone (sourcePath destPath : jsstring) (dryRun verbose : bool)
  : M OS unit :=
  args <- buildRcloneArgs sourcePath destPath dryRun verbose ;;
  (if verbose then Logger.info (js "  Command: rclone " ++ joinWith (js " ") args)
   else ret tt) ;;
  settled <- spawn (js "rclone") args verbose ;;
  match settled with
  | SpawnClosed code stderrData =>
      let stderr := if negb verbose then stderrData else [] in
      if isZero code then ret tt
      else throw (if isEmpty stderr
                  then js "rclone exited with code " ++ codeToString code
                  else stderr)
  | SpawnError message => throw (js "Failed to spawn rclone: " ++ message)
  end.

Definition getRcloneCommandString (sourcePath destPath : jsstring) (dryRun verbose : bool)
  : M OS jsstring :=
  args <- buildRcloneArgs sourcePath destPath dryRun verbose ;;
  ret (js "rclone " ++ joinWith (js " ") args).

End Effects.

Arguments checkRclone : simpl never.
Arguments buildRcloneArgs : simpl never.
Arguments executeRclone : simpl never.

End Rclone.

(** ** backup.ts *)

Module Backup.
Import Config Rclone.

(** Where [runBackup] stands when it reaches its last statement: it has
    returned already ([Returned]: a special mode, or no enabled source), or
    it holds the locals [config] and [summary]. *)
Inductive Stage :=
| Returned
| Summarized (config : MachineConfig) (summary : BackupSummary).

Section Effects.
Context {OS : Type} `{Host OS}.

Definition runToolCheck : M OS unit :=
  Logger.separator (Some (js "Tool Check")) ;;
  toolCheck <- checkRclone ;;
  if rcloneInstalled toolCheck then
    Logger.success (js "rclone: INSTALLED") ;;
    (match rclonePath toolCheck with
     | Some (c :: p) => Logger.info (js "  Path: " ++ c :: p)
     | _ => ret tt
     end) ;;
    (match rcloneVersion toolCheck with
     | Some (c :: v) => Logger.info (js "  Version: " ++ c :: v)
     | _ => ret tt
     end)
  else
    Logger.error (js "rclone: MISSING") ;;
    Logger.info (js "  Install from: https://rclone.org/downloads/").

Definition runInit : M OS unit :=
  let machineName := getMachineName in
  Logger.info (js "Initializing backup configuration for machine: " ++ machineName) ;;
  configPath <- initializeConfig ;;
  created <- existsSync configPath ;;
  if created then
    Logger.success (js "Configuration created: " ++ configPath) ;;
    Logger.info (js "Edit the file and add your source directories, then set enabled = true")
  else ret tt.

Fixpoint listSources (sources : list BackupSource) : M OS unit :=
  match sources with
  | [] => ret tt
  | source :: rest =>
      let status := if enabled source then js "ENABLED" else js "DISABLED" in
      found <- existsSync (path source) ;;
      let exists_ := if found then js "EXISTS" else js "NOT FOUND" in
      Logger.info (name source ++ js ": " ++ status ++ js " - " ++ exists_
                   ++ js " - " ++ path source) ;;
      listSources rest
  end.

Definition runListSources : M OS unit :=
  let configPath := getMachineConfigPath in
  found <- existsSync configPath ;;
  (if negb found then
     Logger.error (js "Configuration file not found: " ++ configPath) ;;
     Logger.info (js "Run with --init flag to create initial configuration") ;;
     process_exit 1
   else ret tt) ;;
  config <- loadConfig (Some configPath) ;;
  Logger.separator (Some (js "Configured Sources")) ;;
  listSources (sources config).

Definition backupSource (source : BackupSource) (dryRun verbose : bool)
  : M OS BackupResult :=
  startTime <- now ;;
  let paths := getPaths in
  let machineName := getMachineName in
  Logger.info (js "Processing: " ++ name source) ;;
  found <- existsSync (path source) ;;
  if negb found then
    Logger.warn (js "  Source not found: " ++ path source) ;;
    ret {| source := source; success := false;
           error := Some (js "Source path not found"); duration := None |}
  else
    let destPath := join [backupsDir paths; machineName; name source] in
    destExists <- existsSync destPath ;;
    (if negb destExists then mkdirSync destPath else ret tt) ;;
    Logger.info (js "  From: " ++ path source) ;;
    Logger.info (js "  To:   " ++ destPath) ;;
    tryCatch
      (executeRclone (path source) destPath dryRun verbose ;;
       finished <- now ;;
       let duration := (finished - startTime)%Z in
       Logger.success (js "  Status: Success (" ++ numToString duration ++ js "ms)") ;;
       ret {| source := source; success := true; error := None;
              duration := Some duration |})
      (fun errorMessage =>
         Logger.error (js "  Status: Failed - " ++ errorMessage) ;;
         ret {| source := source; success := false; error := Some errorMessage;
                duration := None |}).

(** [for (const source of enabledSources) { results.push(await backupSource(...)) }] *)
Fixpoint backupEach (enabledSources : list BackupSource) (dryRun verbose : bool)
  (results : list BackupResult) : M OS (list BackupResult) :=
  match enabledSources with
  | [] => ret results
  | source :: rest =>
      result <- backupSource source dryRun verbose ;;
      backupEach rest dryRun verbose (results ++ [result])
  end.

(** [runBackup] up to and including the construction of [summary]
    (the function itself returns nothing; [Stage] keeps its locals). *)
Definition runBackup_summary (options : CliOptions) : M OS Stage :=
  startTime <- now ;;
  let machineName := getMachineName in
  let paths := getPaths in
  if opt_checkTools options then
    runToolCheck ;; ret Returned
  else if opt_init options then
    runInit ;; ret Returned
  else if opt_listOnly options then
    runListSources ;; ret Returned
  else
    Logger.separator (Some (js "Starting Backup")) ;;
    Logger.info (js "Machine: " ++ machineName) ;;
    (if opt_dryRun options then Logger.warn (js "Mode: DRY RUN") else ret tt) ;;
    rootOk <- validateBackupRoot ;;
    (if negb rootOk then
       Logger.error (js "Backup root directory not found: " ++ backupRoot paths) ;;
       process_exit 1
     else ret tt) ;;
    toolCheck <- checkRclone ;;
    (if negb (allGood toolCheck) then
       Logger.error (js "rclone is not installed") ;;
       Logger.info (js "  Install from: https://rclone.org/downloads/") ;;
       process_exit 1
     else ret tt) ;;
    let configPath := getMachineConfigPath in
    found <- existsSync configPath ;;
    (if negb found then
       Logger.error (js "No configuration found for this machine") ;;
       Logger.error (js "Machine-specific config expected at: " ++ configPath) ;;
       Logger.info (js "Run with --init flag to create initial configuration") ;;
       process_exit 1
     else ret tt) ;;
    config <- tryCatch
                (config <- loadConfig (Some configPath) ;;
                 Logger.info (js "Loaded configuration from: " ++ configPath) ;;
                 ret config)
                (fun message => Logger.error message ;; process_exit 1) ;;
    let enabledSources := getEnabledSources config in
    if Nat.eqb (List.length enabledSources) 0 then
      Logger.warn (js "No enabled sources found in configuration") ;;
      ret Returned
    else
      Logger.info (js "Processing " ++ numToString (Z.of_nat (List.length enabledSources))
                   ++ js " source(s)") ;;
      results <- backupEach enabledSources (opt_dryRun options) (opt_verbose options) [] ;;
      endTime <- now ;;
      let successCount := Z.of_nat (List.length (filter (fun r => success r) results)) in
      let failCount := Z.of_nat (List.length (filter (fun r => negb (success r)) results)) in
      Logger.separator (Some (js "Summary")) ;;
      Logger.success (js "Success: " ++ numToString successCount) ;;
      (if (0 <? failCount)%Z then Logger.warn (js "Failed: " ++ numToString failCount)
       else ret tt) ;;
      (if opt_dryRun options then Logger.warn (js "DRY RUN - no files copied")
       else ret tt) ;;
      let summary :=
        {| machine := machineName;
           startTime := startTime;
           endTime := endTime;
           totalSources := Z.of_nat (List.length enabledSources);
           successCount := successCount;
           failCount := failCount;
           skippedCount := (Z.of_nat (List.length (sources config))
                            - Z.of_nat (List.length enabledSources))%Z;
           results := results;
           dryRun := opt_dryRun options |} in
      ret (Summarized config summary).

Definition runBackup (options : CliOptions) : M OS unit :=
  stage <- runBackup_summary options ;;
  match stage with
  | Returned => ret tt
  | Summarized _ summary =>
      if (0 <? failCount summary)%Z && negb (opt_dryRun options) then process_exit 1
      else ret tt
  end.

End Effects.

Arguments runToolCheck : simpl never.
Arguments runInit : simpl never.
Arguments runListSources : simpl never.
Arguments backupSource : simpl never.
Arguments runBackup_summary : simpl never.

End Backup.

(** ** cli.ts *)

Module Cli.
Section Effects.
Context {OS : Type} `{Host OS}.

(** [runBackup(options).catch(err => { console.error(...); process.exit(1) })] *)
Definition main (options : CliOptions) : M OS unit :=
  tryCatch (Backup.runBackup options)
           (fun message =>
              console_error (js "Fatal error: " ++ message) ;; process_exit 1).

(** The exit code of the process: 0 when the program runs to its end, the
    argument of [process.exit] otherwise (an uncaught error ends Node with 1). *)
Definition exitCode {A} (r : Run OS A) : Z :=
  match outcome r with
  | Ret _ => 0
  | Throw _ => 1
  | Exit code => code
  end.

End Effects.
End Cli.

(** ** Vocabulary of the properties *)

Module Props.
Import Config.

Definition allWhiteSpace (s : jsstring) : bool := forallb isWhiteSpace s.

(** No white space at either end. *)
Definition trimmed (s : jsstring) : bool :=
  match s with
  | [] => true
  | c :: _ => negb (isWhiteSpace c) && negb (isWhiteSpace (last s c))
  end.

(** [typeof v === 'object' && v !== null]: a record or, as in JavaScript,
    an array. *)
Definition isObject (v : JValue) : bool :=
  match v with JObj _ | JArr _ => true | _ => false end.

(** A key-value record, which the specification requires of the root: an
    object that is not an array. *)
Definition isRecord (v : JValue) : bool :=
  match v with JObj _ => true | _ => false end.

Definition isString (v : option JValue) : bool :=
  match v with Some (JStr _) => true | _ => false end.

Definition isBoolean (v : option JValue) : bool :=
  match v with Some (JBool _) => true | _ => false end.

(** A string that is not empty once trimmed. *)
Definition nonBlank (v : option JValue) : bool :=
  match v with Some (JStr s) => negb (isEmpty (trim s)) | _ => false end.

Definition sourceValid (src : JValue) : bool :=
  isObject src && nonBlank (getProp src (js "name"))
  && nonBlank (getProp src (js "path")) && isBoolean (getProp src (js "enabled")).

(** [out] carries the three fields of [src], the strings trimmed. *)
Definition populated (src : JValue) (out : BackupSource) : Prop :=
  exists n p e,
    getProp src (js "name") = Some (JStr n) /\
    getProp src (js "path") = Some (JStr p) /\
    getProp src (js "enabled") = Some (JBool e) /\
    trim n <> [] /\ trim p <> [] /\
    out = {| name := trim n; path := trim p; enabled := e |}.

(** The stored strings are the trimmed input strings, hence the input
    strings themselves when these have no white space at either end. *)
Definition storesTrimmed (src : JValue) (out : BackupSource) : Prop :=
  name out = trim (stringOf (getProp src (js "name")))
  /\ path out = trim (stringOf (getProp src (js "path")))
  /\ (trimmed (stringOf (getProp src (js "name"))) = true ->
      name out = stringOf (getProp src (js "name")))
  /\ (trimmed (stringOf (getProp src (js "path"))) = true ->
      path out = stringOf (getProp src (js "path"))).

(** The argument list in the order the specification's contract writes:
    [sync <source> <dest> --checksum --delete-during [--filter-from <file>]
    [--dry-run] [--verbose --progress]]; [filters] is the filter-rules file
    when it exists. *)
Definition contractArgs (sourcePath destPath : jsstring) (filters : option jsstring)
  (dryRun verbose : bool) : list jsstring :=
  [js "sync"; sourcePath; destPath; js "--checksum"; js "--delete-during"]
  ++ (match filters with Some f => [js "--filter-from"; f] | None => [] end)
  ++ (if dryRun then [js "--dry-run"] else [])
  ++ (if verbose then [js "--verbose"; js "--progress"] else []).

(** The argument list as [buildRcloneArgs] pushes it. *)
Definition builtArgs (sourcePath destPath : jsstring) (dryRun verbose : bool)
  (filters : option jsstring) : list jsstring :=
  [js "sync"; sourcePath; destPath; js "--checksum"; js "--delete-during"]
  ++ (if dryRun then [js "--dry-run"] else [])
  ++ (if verbose then [js "--verbose"; js "--progress"] else [])
  ++ (match filters with Some f => [js "--filter-from"; f] | None => [] end).

(** White space put around the [name] and [path] of a source. *)
Record Padding := {
  name_l : jsstring; name_r : jsstring;
  path_l : jsstring; path_r : jsstring
}.

Definition whitePadding (p : Padding) : bool :=
  allWhiteSpace (name_l p) && allWhiteSpace (name_r p)
  && allWhiteSpace (path_l p) && allWhiteSpace (path_r p).

Definition padString (l r : jsstring) (v : JValue) : JValue :=
  match v with JStr s => JStr (l ++ s ++ r) | _ => v end.

(** The fields of a record, [g] applied to the value under [key]. *)
Definition mapField (key : jsstring) (g : JValue -> JValue)
  (fields : list (jsstring * JValue)) : list (jsstring * JValue) :=
  map (fun kv => if jsstring_eqb (fst kv) key then (fst kv, g (snd kv)) else kv) fields.

Definition padField (key l r : jsstring) (fields : list (jsstring * JValue))
  : list (jsstring * JValue) :=
  mapField key (padString l r) fields.

Definition padSource (p : Padding) (src : JValue) : JValue :=
  match src with
  | JObj fields =>
      JObj (padField (js "path") (path_l p) (path_r p)
              (padField (js "name") (name_l p) (name_r p) fields))
  | _ => src
  end.

Fixpoint padItems (pads : nat -> Padding) (i : nat) (items : list JValue) : list JValue :=
  match items with
  | [] => []
  | x :: rest => padSource (pads i) x :: padItems pads (S i) rest
  end.

Definition padSources (pads : nat -> Padding) (v : JValue) : JValue :=
  match v with JArr items => JArr (padItems pads 0 items) | _ => v end.

(** The configuration [data] with the padding [pads i] around the strings
    of its source number [i]. *)
Definition padConfig (pads : nat -> Padding) (data : JValue) : JValue :=
  match data with
  | JObj fields => JObj (mapField (js "sources") (padSources pads) fields)
  | _ => data
  end.

(** The result recorded for a source whose path is missing. *)
Definition notFound (source : BackupSource) : BackupResult :=
  {| source := source; success := false;
     error := Some (js "Source path not found"); duration := None |}.

Section OnHost.
Context {OS : Type} `{Host OS}.

(** The filter-rules file, when it exists. *)
Definition filtersOn (os : OS) : option jsstring :=
  if fs_existsSync (filtersFile getPaths) os then Some (filtersFile getPaths) else None.

(** The directory step of [initializeConfig]: the error thrown, if any, and
    the state it leaves. *)
Definition ensureConfigsDir (os : OS) : option jsstring * OS :=
  if fs_existsSync (machineConfigsDir getPaths) os then (None, os)
  else fs_mkdirSync (machineConfigsDir getPaths) os.

(** The directories created, the logger's own [logs] directory left out. *)
Definition ownMkdirs (evs : list Event) : list jsstring :=
  flat_map (fun e => match e with
                     | EvMkdir p => if jsstring_eqb p (logsDir getPaths) then [] else [p]
                     | _ => []
                     end) evs.

(** Every file appended to is a day's log file. *)
Definition appendsToLog (evs : list Event) : Prop :=
  Forall (fun pc => exists day, fst pc = Logger.getLogFilePath day) (appends evs).

End OnHost.

End Props.
Import Props.

(** ** A small concrete host, to run the program on

    Paths are joined with [/]; the file system is the list of paths that
    exist and the text of the files among them; [rclone] is installed when
    [installed] says so and succeeds on every pair it is given; the clock
    advances by 5 ms with each sync and the day stays the same; every
    directory can be created and every file written or appended to. *)

Module Demo.

Record DemoOS := {
  present : list jsstring;
  files : list (jsstring * jsstring);
  clock : Z;
  installed : bool
}.

Fixpoint readText (p : jsstring) (fs : list (jsstring * jsstring)) : option jsstring :=
  match fs with
  | [] => None
  | (q, c) :: rest => if jsstring_eqb q p then Some c else readText p rest
  end.

(** The files after [c] is appended to the file [p], created when missing. *)
Fixpoint appendText (p c : jsstring) (fs : list (jsstring * jsstring))
  : list (jsstring * jsstring) :=
  match fs with
  | [] => [(p, c)]
  | (q, old) :: rest =>
      if jsstring_eqb q p then (q, old ++ c) :: rest else (q, old) :: appendText p c rest
  end.

Definition today : LoggerFormat.LocalTime :=
  {| LoggerFormat.fullYear := 2026; LoggerFormat.month := 2; LoggerFormat.date := 14;
     LoggerFormat.hours := 3; LoggerFormat.minutes := 0; LoggerFormat.seconds := 7 |}.

(** The configuration of the specification's scenario. *)
Definition scenarioText : jsstring :=
  js "{ machine_name: H1, sources: [a /exists true, b /missing true, c /x false] }".

Definition sourceJSON (n p : string) (e : bool) : JValue :=
  JObj [ (js "name", JStr (js n)); (js "path", JStr (js p)); (js "enabled", JBool e) ].

Definition scenarioJSON : JValue :=
  JObj [ (js "machine_name", JStr (js "H1"));
         (js "sources", JArr [ sourceJSON "a" "/exists" true;
                               sourceJSON "b" "/missing" true;
                               sourceJSON "c" "/x" false ]) ].

#[global] Instance demoHost : Host DemoOS := {
  cwd := js "/srv/syncr";
  hostname := js "H1";
  win32 := false;
  join := Rclone.joinWith (js "/");
  JSON_parse := fun text =>
    if jsstring_eqb text scenarioText then inl scenarioJSON
    else inr (js "Unexpected token");
  JSON_stringify := fun _ => js "{}";
  versionMatch := fun _ => None;
  Date_now := clock;
  Date_local := fun _ => today;
  fs_existsSync := fun p os => existsb (jsstring_eqb p) (present os);
  fs_mkdirSync := fun p os =>
    (None, {| present := p :: present os; files := files os;
              clock := clock os; installed := installed os |});
  fs_readFileSync := fun p os =>
    match readText p (files os) with
    | Some c => inl c
    | None => inr (js "ENOENT: no such file or directory")
    end;
  fs_writeFileSync := fun p c os =>
    (None, {| present := p :: present os; files := (p, c) :: files os;
              clock := clock os; installed := installed os |});
  fs_appendFileSync := fun p c os =>
    (None, {| present := p :: present os; files := appendText p c (files os);
              clock := clock os; installed := installed os |});
  cp_spawnSync := fun _ _ os =>
    (if installed os
     then {| status := Some 0%Z; stdout := Some (js "/usr/bin/rclone") |}
     else {| status := Some 1%Z; stdout := Some [] |}, os);
  cp_spawn := fun _ _ _ os =>
    (SpawnClosed (Some 0%Z) [],
     {| present := present os; files := files os;
        clock := (clock os + 5)%Z; installed := installed os |});
  console_out := fun _ os => os
}.

Definition configPath : jsstring := js "/srv/syncr/config/machine-configs/H1.json".

(** The scenario's machine: [/exists] is there, [/missing] is not. *)
Definition scenarioOS : DemoOS :=
  {| present := [ js "/srv/syncr"; js "/srv/syncr/config/machine-configs";
                  configPath; js "/exists" ];
     files := [ (configPath, scenarioText) ];
     clock := 1000;
     installed := true |}.

(** A machine with the filter rules in place. *)
Definition filteredOS : DemoOS :=
  {| present := [ js "/srv/syncr/config/filters.txt" ]; files := [];
     clock := 0; installed := true |}.

Definition options (dry verbose : bool) : CliOptions :=
  {| opt_dryRun := dry; opt_verbose := verbose; opt_listOnly := false;
     opt_init := false; opt_checkTools := false |}.

(** White space to put around a name and a path: blanks, a tab, a no-break
    space and a line feed. *)
Definition spaces : Props.Padding :=
  {| Props.name_l := js " "; Props.name_r := js "  ";
     Props.path_l := [9%N; 160%N]; Props.path_r := [10%N] |}.

(** The scenario's sources, the configuration they make, and the summaries
    its run and its dry run build. *)
Definition sourceA : BackupSource :=
  {| name := js "a"; path := js "/exists"; enabled := true |}.

Definition sourceB : BackupSource :=
  {| name := js "b"; path := js "/missing"; enabled := true |}.

Definition sourceC : BackupSource :=
  {| name := js "c"; path := js "/x"; enabled := false |}.

Definition scenarioConfig : MachineConfig :=
  {| machine_name := js "H1"; sources := [sourceA; sourceB; sourceC] |}.

Definition scenarioRun (dry : bool) : BackupSummary :=
  {| machine := js "H1"; startTime := 1000; endTime := 1005;
     totalSources := 2; successCount := 1; failCount := 1; skippedCount := 1;
     results :=
       [ {| source := sourceA; success := true; error := None;
            duration := Some 5%Z |};
         {| source := sourceB; success := false;
            error := Some (js "Source path not found"); duration := None |} ];
     dryRun := dry |}.

Definition scenarioSummary : BackupSummary := scenarioRun false.
Definition drySummary : BackupSummary := scenarioRun true.

(** A machine without rclone. *)
Definition toollessOS : DemoOS :=
  {| present := [ js "/srv/syncr" ]; files := []; clock := 1000; installed := false |}.

(** A configuration whose second source has a blank path. *)
Definition blankPath : JValue :=
  JObj [ (js "name", JStr (js "b")); (js "path", JStr (js "   "));
         (js "enabled", JBool true) ].

Definition blankPathJSON : JValue :=
  JObj [ (js "machine_name", JStr (js "H1"));
         (js "sources", JArr [ sourceJSON "a" "/exists" true; blankPath ]) ].

End Demo.

(** ** The same machine with its disk nearly full

    Everything is as on the first host, but only [room] more lines fit on
    the disk: each [appendFileSync] takes one, and once none is left
    [mkdirSync], [writeFileSync] and [appendFileSync] throw [ENOSPC]. *)

Module Full.

Record FullOS := {
  disk : Demo.DemoOS;
  room : nat
}.

Definition noSpace : jsstring := js "ENOSPC: no space left on device".

#[global] Instance fullHost : Host FullOS := {
  cwd := js "/srv/syncr";
  hostname := js "H1";
  win32 := false;
  join := Rclone.joinWith (js "/");
  JSON_parse := @JSON_parse _ Demo.demoHost;
  JSON_stringify := @JSON_stringify _ Demo.demoHost;
  versionMatch := fun _ => None;
  Date_now := fun os => Demo.clock (disk os);
  Date_local := fun _ => Demo.today;
  fs_existsSync := fun p os => @fs_existsSync _ Demo.demoHost p (disk os);
  fs_mkdirSync := fun p os =>
    match room os with
    | O => (Some noSpace, os)
    | S _ => (None, {| disk := snd (@fs_mkdirSync _ Demo.demoHost p (disk os));
                       room := room os |})
    end;
  fs_readFileSync := fun p os => @fs_readFileSync _ Demo.demoHost p (disk os);
  fs_writeFileSync := fun p c os =>
    match room os with
    | O => (Some noSpace, os)
    | S _ => (None, {| disk := snd (@fs_writeFileSync _ Demo.demoHost p c (disk os));
                       room := room os |})
    end;
  fs_appendFileSync := fun p c os =>
    match room os with
    | O => (Some noSpace, os)
    | S rest => (None, {| disk := snd (@fs_appendFileSync _ Demo.demoHost p c (disk os));
                          room := rest |})
    end;
  cp_spawnSync := fun c a os =>
    (fst (@cp_spawnSync _ Demo.demoHost c a (disk os)), os);
  cp_spawn := fun c a i os =>
    (fst (@cp_spawn _ Demo.demoHost c a i (disk os)),
     {| disk := snd (@cp_spawn _ Demo.demoHost c a i (disk os)); room := room os |});
  console_out := fun _ os => os
}.

(** The scenario's machine with room for nine more log lines, with room
    for one, and with none. *)
Definition scenarioOS : FullOS := {| disk := Demo.scenarioOS; room := 9 |}.

Definition lastLineOS : FullOS := {| disk := Demo.scenarioOS; room := 1 |}.


End Full.




(** ** Vocabulary of traces and runs *)

Module Traces.

(** The commands probed with [spawnSync], in order. *)
Definition probes (evs : list Event) : list (jsstring * list jsstring) :=
  flat_map (fun e => match e with EvSpawnSync c a => [(c, a)] | _ => [] end) evs.

(** The lines logged, in order. *)
Definition logged (evs : list Event) : list (LogLevel * jsstring) :=
  flat_map (fun e => match e with EvLog _ l m => [(l, m)] | _ => [] end) evs.

Section OnHost.
Context {OS : Type} `{Host OS}.

(** Nothing synced; nothing created or written but what the logger does:
    its [logs] directory and the lines it appends to a day's log file. *)
Definition untouched (evs : list Event) : Prop :=
  spawns evs = [] /\ writes evs = [] /\ ownMkdirs evs = [] /\ appendsToLog evs.

(** A machine on which a log line can always be written. *)
Definition logsReliably : Prop :=
  forall message level (os : OS), outcome (Logger.log message level os) = Ret tt.

(** [m] never syncs, and creates or writes nothing of its own. *)
Definition quiet {A} (m : M OS A) : Prop :=
  forall os, untouched (events (m os)).

(** [m] never spawns rclone. *)
Definition syncless {A} (m : M OS A) : Prop :=
  forall os, spawns (events (m os)) = [].

(** [m] never ends the process. *)
Definition neverExits {A} (m : M OS A) : Prop :=
  forall os c, outcome (m os) <> Exit c.

(** [m] always returns a value. *)
Definition returns {A} (m : M OS A) : Prop :=
  forall os, exists a, outcome (m os) = Ret a.

(** When [m] ends the process it does so with code 1. *)
Definition exitsWithOne {A} (m : M OS A) : Prop :=
  forall os c, outcome (m os) = Exit c -> c = 1%Z.

(** When [m] ends the process it does so with code 1 and has not synced,
    nor created or written anything of its own. *)
Definition exitsClean {A} (m : M OS A) : Prop :=
  forall os c, outcome (m os) = Exit c -> c = 1%Z /\ untouched (events (m os)).

End OnHost.

(** The line [--list-only] logs for a source found, or not, on disk. *)
Definition listLine (s : BackupSource) (found : bool) : LogLevel * jsstring :=
  (INFO,
   name s ++ js ": " ++ (if enabled s then js "ENABLED" else js "DISABLED")
   ++ js " - " ++ (if found then js "EXISTS" else js "NOT FOUND")
   ++ js " - " ++ path s).

(** A source as validation stores it: name and path not empty and without
    white space at either end. *)
Definition wellFormed (s : BackupSource) : Prop :=
  name s <> [] /\ trimmed (name s) = true
  /\ path s <> [] /\ trimmed (path s) = true.

End Traces.
Import Traces.

(** ** A second concrete host: a Windows machine whose rclone fails

    Paths are joined with a backslash; [where rclone] finds two
    executables; every sync exits with code 1 and a message on its standard
    error; the only JSON text known is the template's; it is always new
    year's morning; every directory can be created and every file written
    or appended to. *)

Module Lab.

Record LabOS := {
  there : list jsstring;
  texts : list (jsstring * jsstring)
}.

Definition templateText : jsstring :=
  js "{ machine_name: H2, sources: [ExampleProject C:\Path\To\Project\_docs false] }".

Definition templateJSON : JValue :=
  JObj [ (js "machine_name", JStr (js "H2"));
         (js "sources",
          JArr [ JObj [ (js "name", JStr (js "ExampleProject"));
                        (js "path", JStr (js "C:\Path\To\Project\_docs"));
                        (js "enabled", JBool false) ] ]) ].

Definition newYear : LoggerFormat.LocalTime :=
  {| LoggerFormat.fullYear := 2026; LoggerFormat.month := 0; LoggerFormat.date := 1;
     LoggerFormat.hours := 9; LoggerFormat.minutes := 5; LoggerFormat.seconds := 0 |}.

Definition christmas : LoggerFormat.LocalTime :=
  {| LoggerFormat.fullYear := 2026; LoggerFormat.month := 11; LoggerFormat.date := 25;
     LoggerFormat.hours := 23; LoggerFormat.minutes := 59; LoggerFormat.seconds := 59 |}.

Definition whereOutput : jsstring :=
  js "C:\tools\rclone.exe" ++ [13%N; 10%N] ++ js "D:\old\rclone.exe" ++ [13%N; 10%N].

#[global] Instance labHost : Host LabOS := {
  cwd := js "C:\syncr";
  hostname := js "H2";
  win32 := true;
  join := Rclone.joinWith (js "\");
  JSON_parse := fun text =>
    if jsstring_eqb text templateText then inl templateJSON
    else inr (js "Unexpected token");
  JSON_stringify := fun _ => templateText;
  versionMatch := fun _ => None;
  Date_now := fun _ => 0%Z;
  Date_local := fun _ => newYear;
  fs_existsSync := fun p os => existsb (jsstring_eqb p) (there os);
  fs_mkdirSync := fun p os => (None, {| there := p :: there os; texts := texts os |});
  fs_readFileSync := fun p os =>
    match Demo.readText p (texts os) with
    | Some c => inl c
    | None => inr (js "ENOENT: no such file or directory")
    end;
  fs_writeFileSync := fun p c os =>
    (None, {| there := p :: there os; texts := (p, c) :: texts os |});
  fs_appendFileSync := fun p c os =>
    (None, {| there := p :: there os; texts := Demo.appendText p c (texts os) |});
  cp_spawnSync := fun _ _ os =>
    ({| status := Some 0%Z; stdout := Some whereOutput |}, os);
  cp_spawn := fun _ _ _ os =>
    (SpawnClosed (Some 1%Z) (js "Failed to copy: disk full"), os);
  console_out := fun _ os => os
}.

(** A fresh machine, and one with a source folder and its destination. *)
Definition freshOS : LabOS := {| there := [ js "C:\syncr" ]; texts := [] |}.

(** A configuration that names the same source twice. *)
Definition twiceJSON : JValue :=
  JObj [ (js "machine_name", JStr (js "H1"));
         (js "sources", JArr [ Demo.sourceJSON "a" "/exists" true;
                               Demo.sourceJSON "a" "/exists" true ]) ].

Definition notes : BackupSource :=
  {| name := js "notes"; path := js "D:\Notes"; enabled := true |}.

Definition notesOS : LabOS :=
  {| there := [ js "C:\syncr"; js "D:\Notes"; js "C:\syncr\backups\H2\notes" ];
     texts := [] |}.

End Lab.

(** * Properties *)

(** ** Strings *)

Lemma jsstring_eqb_eq (a b : jsstring) : jsstring_eqb a b = true <-> a = b.
Proof.
  revert b; induction a as [|x a IH]; intros [|y b]; simpl; split;
    try congruence; try reflexivity.
  - intros Hxy. apply andb_true_iff in Hxy as [Hx Ha].
    apply N.eqb_eq in Hx. apply IH in Ha. congruence.
  - intros Heq. injection Heq as -> ->. rewrite N.eqb_refl. simpl. now apply IH.
Qed.

Lemma jsstring_eqb_eq_refl (a : jsstring) : jsstring_eqb a a = true.
Proof. now apply jsstring_eqb_eq. Qed.

Lemma dropWhile_all {A} (p : A -> bool) (l x : list A) :
  forallb p l = true -> dropWhile p (l ++ x) = dropWhile p x.
Proof.
  induction l as [|c l IH]; simpl; [reflexivity|].
  intros Hall. apply andb_true_iff in Hall as [Hc Hl]. rewrite Hc. now apply IH.
Qed.

Lemma dropWhile_app {A} (p : A -> bool) (s r : list A) :
  dropWhile p (s ++ r) =
  match dropWhile p s with [] => dropWhile p r | _ :: _ => dropWhile p s ++ r end.
Proof.
  induction s as [|c s IH]; simpl.
  - now destruct (dropWhile p r).
  - destruct (p c); [exact IH | reflexivity].
Qed.

Lemma trimEnd_all (t r : jsstring) :
  allWhiteSpace r = true -> trimEnd (t ++ r) = trimEnd t.
Proof.
  intros Hr. unfold trimEnd. rewrite rev_app_distr, dropWhile_all; [reflexivity|].
  unfold allWhiteSpace in Hr. rewrite forallb_forall in *.
  intros c Hc. apply Hr. now apply in_rev.
Qed.

Lemma trim_pad (l s r : jsstring) :
  allWhiteSpace l = true -> allWhiteSpace r = true -> trim (l ++ s ++ r) = trim s.
Proof.
  intros Hl Hr. unfold trim, trimStart.
  rewrite (dropWhile_all _ _ _ Hl), dropWhile_app.
  destruct (dropWhile isWhiteSpace s) as [|c t] eqn:Hs.
  - rewrite <- (app_nil_r r), (dropWhile_all _ _ _ Hr). reflexivity.
  - now apply trimEnd_all.
Qed.

Lemma dropWhile_head {A} (p : A -> bool) (c : A) (s : list A) :
  p c = false -> dropWhile p (c :: s) = c :: s.
Proof. intros Hc. simpl. now rewrite Hc. Qed.

Lemma trim_trimmed (s : jsstring) : trimmed s = true -> trim s = s.
Proof.
  destruct s as [|c s]; [reflexivity|].
  unfold trimmed. intros Hs. apply andb_true_iff in Hs as [Hc Hlast].
  apply negb_true_iff in Hc, Hlast.
  unfold trim, trimStart. rewrite (dropWhile_head _ _ _ Hc).
  unfold trimEnd.
  destruct (exists_last (l := c :: s)) as (s' & d & Hsd); [discriminate|].
  rewrite Hsd in *. rewrite last_last in Hlast.
  rewrite rev_unit, (dropWhile_head _ _ _ Hlast).
  now rewrite <- rev_unit, rev_involutive.
Qed.

Example trim_strips_both_ends :
  trim ([9%N; 32%N] ++ js "a b" ++ [160%N; 8232%N; 10%N]) = js "a b".
Proof. reflexivity. Qed.

Example trim_blank : trim (js "   ") = [].
Proof. reflexivity. Qed.

Example numToString_decimal : numToString 120 = js "120" /\ numToString 0 = js "0".
Proof. split; reflexivity. Qed.

(** ** Validation of the configuration (config.ts) *)

Example validateConfig_scenario :
  Config.validateConfig Demo.scenarioJSON = Ret Demo.scenarioConfig.
Proof. reflexivity. Qed.

Example validateConfig_array_root :
  Config.validateConfig (JArr []) = Throw (js "Config missing 'machine_name' field").
Proof. reflexivity. Qed.

Section ValidateSource.
Import Config.
Variables (src : JValue) (i : nat).

Local Abbreviation vname := (getProp src (js "name")).
Local Abbreviation vpath := (getProp src (js "path")).
Local Abbreviation venabled := (getProp src (js "enabled")).

Lemma validateSource_not_object :
  isObject src = false ->
  validateSource src i =
  Throw (js "Source at index " ++ numToString (Z.of_nat i) ++ js " is not an object").
Proof. destruct src; intros Hobj; try discriminate Hobj; reflexivity. Qed.

Lemma validateSource_object :
  isObject src = true ->
  validateSource src i =
  if negb (nonBlank vname) then
    Throw (js "Source at index " ++ numToString (Z.of_nat i)
              ++ js " missing valid 'name' field")
  else if negb (nonBlank vpath) then
    Throw (js "Source at index " ++ numToString (Z.of_nat i)
              ++ js " missing valid 'path' field")
  else if negb (isBoolean venabled) then
    Throw (js "Source at index " ++ numToString (Z.of_nat i)
              ++ js " missing valid 'enabled' field")
  else
    Ret {| name := trim (stringOf vname); path := trim (stringOf vpath);
           enabled := boolOf venabled |}.
Proof.
  intros Hobj. unfold validateSource.
  replace (negb (JsType_eqb (typeof (Some src)) TObject) || isNull (Some src))
    with false by (destruct src; try discriminate Hobj; reflexivity).
  destruct vname as [[| | |n| |]|]; try reflexivity.
  simpl nonBlank. simpl typeof. simpl stringOf.
  destruct (isEmpty (trim n)); [reflexivity|].
  destruct vpath as [[| | |p| |]|]; try reflexivity.
  simpl nonBlank. simpl typeof. simpl stringOf.
  destruct (isEmpty (trim p)); [reflexivity|].
  destruct venabled as [[]|]; reflexivity.
Qed.

Lemma validateSource_valid :
  sourceValid src = true ->
  exists out, validateSource src i = Ret out /\ populated src out.
Proof.
  unfold sourceValid. intros Hv.
  repeat (apply andb_true_iff in Hv as [Hv ?]).
  rewrite (validateSource_object Hv).
  unfold populated.
  destruct vname as [[| | |n| |]|]; try discriminate.
  destruct vpath as [[| | |p| |]|]; try discriminate.
  destruct venabled as [[|e| | | |]|]; try discriminate.
  simpl in *.
  destruct (trim n) eqn:Hn; [discriminate|].
  destruct (trim p) eqn:Hp; [discriminate|].
  simpl. eexists. split; [reflexivity|].
  exists n, p, e. rewrite Hn, Hp. repeat split; discriminate.
Qed.

Lemma validateSource_ret (out : BackupSource) :
  validateSource src i = Ret out -> sourceValid src = true /\ populated src out.
Proof.
  intros Hret.
  destruct (isObject src) eqn:Hobj.
  2:{ rewrite (validateSource_not_object Hobj) in Hret. discriminate. }
  assert (Hvalid : sourceValid src = true).
  { rewrite (validateSource_object Hobj) in Hret. unfold sourceValid.
    rewrite Hobj.
    destruct (nonBlank vname); [|discriminate].
    destruct (nonBlank vpath); [|discriminate].
    destruct (isBoolean venabled); [reflexivity|discriminate]. }
  split; [exact Hvalid|].
  destruct (validateSource_valid Hvalid) as (out' & Hout & Hpop).
  congruence.
Qed.

Lemma validateSource_no_exit (c : Z) : validateSource src i <> Exit c.
Proof.
  destruct (isObject src) eqn:Hobj.
  - rewrite (validateSource_object Hobj).
    destruct (negb _); [discriminate|].
    destruct (negb _); [discriminate|].
    destruct (negb _); discriminate.
  - rewrite (validateSource_not_object Hobj). discriminate.
Qed.

End ValidateSource.

Section ValidateConfig.
Import Config.

Lemma mapValidateSource_ret (items : list JValue) :
  forall i outs,
    mapValidateSource items i = Ret outs ->
    Forall2 populated items outs /\ forallb sourceValid items = true.
Proof.
  induction items as [|src rest IH]; simpl; intros i outs Hret.
  - injection Hret as <-. split; [constructor | reflexivity].
  - destruct (validateSource src i) as [out| |] eqn:Hsrc; try discriminate.
    simpl in Hret.
    destruct (mapValidateSource rest (S i)) as [outs'| |] eqn:Hrest; try discriminate.
    injection Hret as <-.
    apply validateSource_ret in Hsrc as [Hvalid Hpop].
    destruct (IH _ _ Hrest) as [Hall Hvalids].
    split; [now constructor | now rewrite Hvalid, Hvalids].
Qed.

Lemma mapValidateSource_first_invalid (items : list JValue) :
  forall i k src e,
    nth_error items k = Some src ->
    forallb sourceValid (firstn k items) = true ->
    validateSource src (i + k) = Throw e ->
    mapValidateSource items i = Throw e.
Proof.
  induction items as [|x rest IH]; intros i [|k] src e Hnth Hbefore Hsrc;
    simpl in *; try discriminate.
  - injection Hnth as ->. rewrite Nat.add_0_r in Hsrc. now rewrite Hsrc.
  - apply andb_true_iff in Hbefore as [Hx Hbefore].
    destruct (validateSource_valid x i Hx) as (out & -> & _). simpl.
    rewrite (IH (S i) k src e Hnth Hbefore); [reflexivity|].
    now rewrite Nat.add_succ_comm.
Qed.

Lemma mapValidateSource_valid (items : list JValue) :
  forall i,
    forallb sourceValid items = true ->
    exists outs, mapValidateSource items i = Ret outs.
Proof.
  induction items as [|src rest IH]; simpl; intros i Hvalid.
  - now exists [].
  - apply andb_true_iff in Hvalid as [Hsrc Hrest].
    destruct (validateSource_valid src i Hsrc) as (out & -> & _).
    destruct (IH (S i) Hrest) as (outs & ->). simpl. now eexists.
Qed.

Lemma mapValidateSource_no_exit (items : list JValue) :
  forall i c, mapValidateSource items i <> Exit c.
Proof.
  induction items as [|x rest IH]; simpl; intros i c; [discriminate|].
  destruct (validateSource x i) eqn:Hx; simpl; try discriminate.
  - destruct (mapValidateSource rest (S i)) eqn:Hrest; simpl; try discriminate.
    now apply IH in Hrest.
  - now apply validateSource_no_exit in Hx.
Qed.

Lemma validateConfig_object (data : JValue) :
  isObject data = true ->
  validateConfig data =
  if negb (isString (getProp data (js "machine_name"))) then
    Throw (js "Config missing 'machine_name' field")
  else if negb (isArray (getProp data (js "sources"))) then
    Throw (js "Config missing 'sources' array")
  else
    bindO (mapValidateSource (itemsOf (getProp data (js "sources"))) 0) (fun outs =>
    Ret {| machine_name := stringOf (getProp data (js "machine_name"));
           sources := outs |}).
Proof.
  intros Hobj. unfold validateConfig.
  replace (negb (JsType_eqb (typeof (Some data)) TObject) || isNull (Some data))
    with false by (destruct data; try discriminate Hobj; reflexivity).
  destruct (getProp data (js "machine_name")) as [[]|]; reflexivity.
Qed.

(** C3 (as the code has it).  The validator is total and precise.  A root
    that is not an object for [typeof] (null, a boolean, a number, a
    string) is refused as malformed.  An array root is an object for
    [typeof]: it passes that test and is refused by the next rule, for its
    missing [machine_name].  A [machine_name] that is not a string, then a
    [sources] that is not an array, are refused by name; the rules are
    applied in order, so the first source that breaks one, at index [k], is
    refused with an error naming [k] and the field ([name], then [path],
    then [enabled]), or saying that the element is not an object.  A root
    that breaks no rule is accepted.  When a configuration is returned
    every field of it is populated: the machine name is the input string
    and each source carries its three validated fields.  Validation never
    ends the process. *)
Theorem validateConfig_total (data : JValue) :
  (isObject data = false ->
   validateConfig data = Throw (js "Config must be a valid JSON object"))
  /\ (isRecord data = false -> isObject data = true ->
      validateConfig data = Throw (js "Config missing 'machine_name' field"))
  /\ (isObject data = true ->
      isString (getProp data (js "machine_name")) = false ->
      validateConfig data = Throw (js "Config missing 'machine_name' field"))
  /\ (isObject data = true ->
      isString (getProp data (js "machine_name")) = true ->
      isArray (getProp data (js "sources")) = false ->
      validateConfig data = Throw (js "Config missing 'sources' array"))
  /\ (forall k src,
        isObject data = true ->
        isString (getProp data (js "machine_name")) = true ->
        nth_error (itemsOf (getProp data (js "sources"))) k = Some src ->
        forallb sourceValid (firstn k (itemsOf (getProp data (js "sources")))) = true ->
        (isObject src = false ->
         validateConfig data =
         Throw (js "Source at index " ++ numToString (Z.of_nat k)
                   ++ js " is not an object"))
        /\ (isObject src = true ->
            nonBlank (getProp src (js "name")) = false ->
            validateConfig data =
            Throw (js "Source at index " ++ numToString (Z.of_nat k)
                      ++ js " missing valid 'name' field"))
        /\ (isObject src = true ->
            nonBlank (getProp src (js "name")) = true ->
            nonBlank (getProp src (js "path")) = false ->
            validateConfig data =
            Throw (js "Source at index " ++ numToString (Z.of_nat k)
                      ++ js " missing valid 'path' field"))
        /\ (isObject src = true ->
            nonBlank (getProp src (js "name")) = true ->
            nonBlank (getProp src (js "path")) = true ->
            isBoolean (getProp src (js "enabled")) = false ->
            validateConfig data =
            Throw (js "Source at index " ++ numToString (Z.of_nat k)
                      ++ js " missing valid 'enabled' field")))
  /\ (isObject data = true ->
      isString (getProp data (js "machine_name")) = true ->
      isArray (getProp data (js "sources")) = true ->
      forallb sourceValid (itemsOf (getProp data (js "sources"))) = true ->
      exists cfg, validateConfig data = Ret cfg)
  /\ (forall cfg,
        validateConfig data = Ret cfg ->
        getProp data (js "machine_name") = Some (JStr (machine_name cfg))
        /\ Forall2 populated (itemsOf (getProp data (js "sources"))) (sources cfg))
  /\ (forall c, validateConfig data <> Exit c).
Proof.
  repeat apply conj.
  - destruct data; intros Hobj; try discriminate Hobj; reflexivity.
  - destruct data; intros Hrec Hobj; try discriminate Hobj; try discriminate Hrec.
    reflexivity.
  - intros Hobj Hname. now rewrite (validateConfig_object _ Hobj), Hname.
  - intros Hobj Hname Harr. now rewrite (validateConfig_object _ Hobj), Hname, Harr.
  - intros k src Hobj Hname Hnth Hbefore.
    assert (Hstep : forall e, validateSource src (0 + k) = Throw e ->
                              validateConfig data = Throw e).
    { intros e He. rewrite (validateConfig_object _ Hobj), Hname.
      destruct (getProp data (js "sources")) as [[]|]; try (now destruct k).
      simpl in *. now rewrite (mapValidateSource_first_invalid _ 0 k _ _ Hnth Hbefore He). }
    simpl in Hstep. repeat apply conj.
    + intros Hsrc. apply Hstep. now apply validateSource_not_object.
    + intros Hsrc Hn. apply Hstep.
      now rewrite (validateSource_object _ _ Hsrc), Hn.
    + intros Hsrc Hn Hp. apply Hstep.
      now rewrite (validateSource_object _ _ Hsrc), Hn, Hp.
    + intros Hsrc Hn Hp He. apply Hstep.
      now rewrite (validateSource_object _ _ Hsrc), Hn, Hp, He.
  - intros Hobj Hname Harr Hvalid.
    rewrite (validateConfig_object _ Hobj), Hname, Harr. simpl.
    destruct (mapValidateSource_valid _ 0 Hvalid) as (outs & ->). simpl.
    now eexists.
  - intros cfg Hret.
    destruct (isObject data) eqn:Hobj.
    2:{ destruct data; try discriminate Hobj; discriminate Hret. }
    rewrite (validateConfig_object _ Hobj) in Hret.
    destruct (getProp data (js "machine_name")) as [[| | |m| |]|]; try discriminate.
    simpl in Hret.
    destruct (isArray _); [|discriminate]. simpl in Hret.
    destruct (mapValidateSource _ 0) as [outs| |] eqn:Hmap; try discriminate.
    injection Hret as <-. simpl. split; [reflexivity|].
    now apply mapValidateSource_ret in Hmap.
  - intros c.
    destruct (isObject data) eqn:Hobj.
    2:{ destruct data; try discriminate Hobj; discriminate. }
    rewrite (validateConfig_object _ Hobj).
    destruct (negb _); [discriminate|].
    destruct (negb _); [discriminate|].
    destruct (mapValidateSource _ 0) eqn:Hmap; simpl; try discriminate.
    now apply mapValidateSource_no_exit in Hmap.
Qed.

Lemma validateConfig_total_witness :
  validateConfig Demo.blankPathJSON =
  Throw (js "Source at index 1 missing valid 'path' field").
Proof.
  destruct (validateConfig_total Demo.blankPathJSON) as (_ & _ & _ & _ & Hsrc & _).
  destruct (Hsrc 1%nat Demo.blankPath eq_refl eq_refl eq_refl eq_refl)
    as (_ & _ & Hpath & _).
  exact (Hpath eq_refl eq_refl eq_refl).
Defined.

End ValidateConfig.

(** C3 as stated fails: an array at the root is not a key-value record, yet
    it is not refused as malformed: the error is the one for a missing
    [machine_name]. *)
Lemma array_root_not_malformed :
  isRecord (JArr []) = false
  /\ Config.validateConfig (JArr [])
     <> Throw (js "Config must be a valid JSON object")
  /\ Config.validateConfig (JArr [])
     = Throw (js "Config missing 'machine_name' field").
Proof.
  split; [reflexivity|]. split; [|reflexivity].
  intros Heq. vm_compute in Heq. discriminate Heq.
Qed.

(** ** Trimming (config.ts) *)

Section Trimming.
Import Config.

Lemma lookupField_mapField_same (key : jsstring) (g : JValue -> JValue) fields :
  lookupField key (mapField key g fields) = option_map g (lookupField key fields).
Proof.
  induction fields as [|[k v] rest IH]; simpl; [reflexivity|].
  destruct (jsstring_eqb k key) eqn:Hk; simpl; rewrite Hk; [reflexivity | exact IH].
Qed.

Lemma lookupField_mapField_other (key key' : jsstring) (g : JValue -> JValue) fields :
  key <> key' ->
  lookupField key (mapField key' g fields) = lookupField key fields.
Proof.
  intros Hne. induction fields as [|[k v] rest IH]; simpl; [reflexivity|].
  destruct (jsstring_eqb k key') eqn:Hk'; simpl.
  - apply jsstring_eqb_eq in Hk' as ->.
    destruct (jsstring_eqb key' key) eqn:Hk; [|exact IH].
    apply jsstring_eqb_eq in Hk. congruence.
  - destruct (jsstring_eqb k key); [reflexivity | exact IH].
Qed.

Lemma nonBlank_padString (l r : jsstring) (v : option JValue) :
  allWhiteSpace l = true -> allWhiteSpace r = true ->
  nonBlank (option_map (padString l r) v) = nonBlank v.
Proof.
  intros Hl Hr. destruct v as [[]|]; simpl; try reflexivity.
  now rewrite trim_pad.
Qed.

Lemma trim_stringOf_padString (l r : jsstring) (v : option JValue) :
  allWhiteSpace l = true -> allWhiteSpace r = true ->
  trim (stringOf (option_map (padString l r) v)) = trim (stringOf v).
Proof.
  intros Hl Hr. destruct v as [[]|]; simpl; try reflexivity.
  now apply trim_pad.
Qed.

Lemma validateSource_padSource (p : Padding) (src : JValue) (i : nat) :
  whitePadding p = true ->
  validateSource (padSource p src) i = validateSource src i.
Proof.
  unfold whitePadding. intros Hp.
  repeat (apply andb_true_iff in Hp as [Hp ?]).
  destruct src as [| | | | |fields]; try reflexivity.
  rewrite !validateSource_object by reflexivity.
  unfold padSource, padField. simpl getProp.
  rewrite (lookupField_mapField_other (js "name") (js "path"))
    by discriminate.
  rewrite (lookupField_mapField_same (js "name")).
  rewrite (lookupField_mapField_same (js "path")).
  rewrite (lookupField_mapField_other (js "path") (js "name"))
    by discriminate.
  rewrite !(lookupField_mapField_other (js "enabled")) by discriminate.
  now rewrite !nonBlank_padString, !trim_stringOf_padString.
Qed.

Lemma mapValidateSource_padItems (pads : nat -> Padding) (items : list JValue) :
  (forall i, whitePadding (pads i) = true) ->
  forall i, mapValidateSource (padItems pads i items) i = mapValidateSource items i.
Proof.
  intros Hpads. induction items as [|x rest IH]; intros i; simpl; [reflexivity|].
  now rewrite validateSource_padSource, IH.
Qed.

Lemma validateConfig_padConfig (pads : nat -> Padding) (data : JValue) :
  (forall i, whitePadding (pads i) = true) ->
  validateConfig (padConfig pads data) = validateConfig data.
Proof.
  intros Hpads. destruct data as [| | | | |fields]; try reflexivity.
  rewrite !validateConfig_object by reflexivity.
  unfold padConfig. simpl getProp.
  rewrite (lookupField_mapField_other (js "machine_name")) by discriminate.
  rewrite lookupField_mapField_same.
  destruct (lookupField (js "sources") fields) as [[]|]; try reflexivity.
  simpl. now rewrite mapValidateSource_padItems.
Qed.

Lemma populated_storesTrimmed (src : JValue) (out : BackupSource) :
  populated src out -> storesTrimmed src out.
Proof.
  intros (n & p & e & Hn & Hp & _ & _ & _ & ->).
  unfold storesTrimmed. rewrite Hn, Hp. simpl.
  repeat split; try reflexivity; intros Ht; now rewrite trim_trimmed.
Qed.

(** C8.  Validation stores each source's [name] and [path] trimmed, so a
    configuration validates to the same result whether or not white space
    surrounds those strings, and strings without white space at their ends
    are stored as they are.  (The validator is a function of its input: it
    has no assignment to it.) *)
Theorem validateConfig_trim_idempotent (data : JValue) (pads : nat -> Padding) :
  (forall i, whitePadding (pads i) = true) ->
  validateConfig (padConfig pads data) = validateConfig data
  /\ (forall cfg,
        validateConfig data = Ret cfg ->
        Forall2 storesTrimmed (itemsOf (getProp data (js "sources"))) (sources cfg)).
Proof.
  intros Hpads. split; [now apply validateConfig_padConfig|].
  intros cfg Hret.
  destruct (isObject data) eqn:Hobj.
  2:{ destruct data; try discriminate Hobj; discriminate Hret. }
  rewrite (validateConfig_object _ Hobj) in Hret.
  destruct (negb (isString _)); [discriminate|].
  destruct (negb (isArray _)); [discriminate|].
  destruct (mapValidateSource _ 0) as [outs| |] eqn:Hmap; try discriminate.
  injection Hret as <-. simpl.
  apply mapValidateSource_ret in Hmap as [Hall _].
  eapply Forall2_impl; [|exact Hall]. apply populated_storesTrimmed.
Qed.

Lemma validateConfig_trim_idempotent_witness :
  validateConfig (padConfig (fun _ => Demo.spaces) Demo.scenarioJSON)
  = validateConfig Demo.scenarioJSON.
Proof.
  apply (validateConfig_trim_idempotent Demo.scenarioJSON (fun _ => Demo.spaces)).
  intros _. reflexivity.
Defined.

End Trimming.

(** ** Runs *)

Section Runs.
Context {OS : Type} `{Host OS}.

Lemma bind_ret_inv {A B} (m : M OS A) (k : A -> M OS B) (os : OS) (b : B) :
  outcome (bind m k os) = Ret b ->
  exists a, outcome (m os) = Ret a /\ outcome (k a (host (m os))) = Ret b.
Proof.
  unfold bind. destruct (m os) as [[a| |] os1 evs1]; simpl; try discriminate.
  intros Hk. exists a. split; [reflexivity|].
  now destruct (k a os1) as [o os2 evs2].
Qed.

End Runs.

(** ** The logger (logger.ts) *)

Section LoggerRuns.
Import Config.
Context {OS : Type} `{Host OS}.

Lemma spawns_app (a b : list Event) : spawns (a ++ b) = spawns a ++ spawns b.
Proof. apply flat_map_app. Qed.

Lemma mkdirs_app (a b : list Event) : mkdirs (a ++ b) = mkdirs a ++ mkdirs b.
Proof. apply flat_map_app. Qed.

Lemma writes_app (a b : list Event) : writes (a ++ b) = writes a ++ writes b.
Proof. apply flat_map_app. Qed.

Lemma appends_app (a b : list Event) : appends (a ++ b) = appends a ++ appends b.
Proof. apply flat_map_app. Qed.

Lemma ownMkdirs_app (a b : list Event) : ownMkdirs (a ++ b) = ownMkdirs a ++ ownMkdirs b.
Proof. apply flat_map_app. Qed.

Lemma appendsToLog_app (a b : list Event) :
  appendsToLog a -> appendsToLog b -> appendsToLog (a ++ b).
Proof.
  unfold appendsToLog. intros Ha Hb. rewrite appends_app. apply Forall_app. now split.
Qed.

Lemma untouched_nil : untouched [].
Proof. repeat split. constructor. Qed.

Lemma untouched_app (a b : list Event) :
  untouched a -> untouched b -> untouched (a ++ b).
Proof.
  intros (Ha1 & Ha2 & Ha3 & Ha4) (Hb1 & Hb2 & Hb3 & Hb4).
  unfold untouched.
  rewrite spawns_app, writes_app, ownMkdirs_app, Ha1, Ha2, Ha3, Hb1, Hb2, Hb3.
  repeat split. now apply appendsToLog_app.
Qed.

(** The directories created other than [logs] are none exactly when every
    directory created is [logs]. *)
Lemma ownMkdirs_nil (evs : list Event) :
  ownMkdirs evs = [] <-> Forall (eq (logsDir getPaths)) (mkdirs evs).
Proof.
  unfold ownMkdirs, mkdirs. generalize (logsDir getPaths). intros dir.
  induction evs as [|e evs IH]; simpl; [split; [constructor | reflexivity]|].
  destruct e as [| |p| | | |]; simpl; try exact IH.
  destruct (jsstring_eqb p dir) eqn:Hp; simpl.
  - apply jsstring_eqb_eq in Hp. rewrite IH. split.
    + intros Hall. now constructor.
    + intros Hall. now inversion Hall.
  - split; [discriminate|]. intros Hall. inversion Hall as [|? ? Heq _]; subst.
    now rewrite jsstring_eqb_eq_refl in Hp.
Qed.

(** One call of the logger, step by step. *)
Lemma log_exact (message : jsstring) (level : LogLevel) (os : OS) :
  let stamp := Date_local os in
  let os1 := console_out (LoggerFormat.consoleLine stamp level message) os in
  let dir := logsDir getPaths in
  let step := if fs_existsSync dir os1 then (None, os1) else fs_mkdirSync dir os1 in
  let made := if fs_existsSync dir os1 then [] else [EvMkdir dir] in
  let file := Logger.getLogFilePath (Date_local (snd step)) in
  let text := LoggerFormat.logMessage stamp level message ++ [10%N] in
  Logger.log message level os =
  match fst step with
  | Some e =>
      {| outcome := Throw e; host := snd step;
         events := EvLog stamp level message :: made |}
  | None =>
      {| outcome := match fst (fs_appendFileSync file text (snd step)) with
                    | None => Ret tt
                    | Some e => Throw e
                    end;
         host := snd (fs_appendFileSync file text (snd step));
         events := EvLog stamp level message :: made ++ [EvAppendFile file text] |}
  end.
Proof.
  cbv zeta. unfold Logger.log, Logger.writeToFile, Logger.ensureLogDir. cbv zeta.
  unfold bind, newDate, console_log, existsSync, mkdirSync, appendFileSync, ret.
  cbn.
  destruct (fs_existsSync _ _); cbn.
  - now destruct (fs_appendFileSync _ _ _) as [[e|] os3].
  - destruct (fs_mkdirSync _ _) as [[e|] os2]; cbn; [reflexivity|].
    now destruct (fs_appendFileSync _ _ _) as [[e|] os3].
Qed.

(** A log call returns or throws; it prints its line, and touches nothing
    but its directory and the day's log file. *)
Lemma log_facts (message : jsstring) (level : LogLevel) (os : OS) :
  let r := Logger.log message level os in
  (outcome r = Ret tt \/ exists e, outcome r = Throw e)
  /\ untouched (events r)
  /\ probes (events r) = []
  /\ logged (events r) = [(level, message)].
Proof.
  cbv zeta. rewrite log_exact. cbv zeta.
  assert (Hlog : forall day c,
             appendsToLog [EvAppendFile (Logger.getLogFilePath day) c]).
  { intros day c. constructor; [now exists day | constructor]. }
  unfold untouched, ownMkdirs.
  destruct (fs_existsSync _ _); cbn.
  - destruct (fs_appendFileSync _ _ _) as [[e|] os3]; cbn;
      repeat split; eauto.
  - destruct (fs_mkdirSync _ _) as [[e|] os2]; cbn;
      rewrite ?jsstring_eqb_eq_refl.
    + repeat split; eauto. constructor.
    + destruct (fs_appendFileSync _ _ _) as [[e|] os3]; cbn;
        repeat split; eauto.
Qed.

End LoggerRuns.

(** ** The arguments given to rclone (rclone.ts) *)

Section RcloneArgs.
Import Config Rclone.
Context {OS : Type} `{Host OS}.

Lemma buildRcloneArgs_run (sourcePath destPath : jsstring) (dryRun verbose : bool)
  (os : OS) :
  buildRcloneArgs sourcePath destPath dryRun verbose os =
  {| outcome := Ret (builtArgs sourcePath destPath dryRun verbose (filtersOn os));
     host := os; events := [] |}.
Proof.
  unfold buildRcloneArgs, bind, existsSync, ret, filtersOn, builtArgs.
  destruct dryRun, verbose, (fs_existsSync (filtersFile getPaths) os); reflexivity.
Qed.

(** C6 (as the code has it).  The argument list is the five fixed tokens
    [sync <source> <dest> --checksum --delete-during], then [--dry-run] exactly
    when [dryRun] is set, then [--verbose --progress] exactly when [verbose]
    is set, then [--filter-from <file>] exactly when the filter rules exist:
    the filter pair comes last, not before [--dry-run].  Building the list
    changes nothing on the host. *)
Theorem buildRcloneArgs_exact (sourcePath destPath : jsstring) (dryRun verbose : bool)
  (os : OS) :
  buildRcloneArgs sourcePath destPath dryRun verbose os =
  {| outcome :=
       Ret ([js "sync"; sourcePath; destPath; js "--checksum"; js "--delete-during"]
            ++ (if dryRun then [js "--dry-run"] else [])
            ++ (if verbose then [js "--verbose"; js "--progress"] else [])
            ++ (if fs_existsSync (filtersFile getPaths) os
                then [js "--filter-from"; filtersFile getPaths] else []));
     host := os;
     events := [] |}.
Proof.
  rewrite buildRcloneArgs_run. unfold builtArgs, filtersOn.
  now destruct (fs_existsSync (filtersFile getPaths) os).
Qed.

End RcloneArgs.

(** C6 as stated fails: in a dry run on a machine that has the filter rules,
    [--filter-from <file>] follows [--dry-run] instead of preceding it. *)
Lemma buildRcloneArgs_contract_order_fails :
  outcome (Rclone.buildRcloneArgs (js "/exists") (js "/dest") true false Demo.filteredOS)
  <> Ret (contractArgs (js "/exists") (js "/dest")
            (Some (js "/srv/syncr/config/filters.txt")) true false).
Proof. vm_compute. discriminate. Qed.

(** ** The sync executor and one source (rclone.ts, backup.ts) *)

(** From here on the projections of a trace are unfolded on demand only. *)
Arguments spawns : simpl never.
Arguments writes : simpl never.
Arguments mkdirs : simpl never.
Arguments appends : simpl never.
Arguments ownMkdirs : simpl never.
Arguments appendsToLog : simpl never.
Arguments probes : simpl never.
Arguments logged : simpl never.

(** A step through the next log call of a goal: it returned, or threw. *)
Ltac log_step :=
  match goal with
  | |- context [Logger.log ?m ?l ?o] =>
      let Hlog := fresh "Hlog" in
      let Ho := fresh "Ho" in
      let Hu := fresh "Hu" in
      let Hp := fresh "Hp" in
      let Hl := fresh "Hl" in
      let ox := fresh "o" in
      let osx := fresh "os" in
      let evx := fresh "evs" in
      pose proof (log_facts m l o) as Ho; cbv zeta in Ho;
      destruct Ho as (Ho & Hu & Hp & Hl);
      destruct (Logger.log m l o) as [ox osx evx] eqn:Hlog; simpl in Ho, Hu, Hp, Hl;
      destruct Ho as [-> | [? ->]]; cbn
  end.

(** What a trace spawned, created, wrote, appended to, probed and logged,
    from what its parts did. *)
Ltac traces :=
  repeat match goal with
         | H : untouched _ |- _ => destruct H as (? & ? & ? & ?)
         end;
  unfold untouched, appendsToLog, ownMkdirs, spawns, writes, mkdirs, appends, probes,
    logged in *;
  repeat (progress (rewrite ?flat_map_app; cbn [flat_map app]));
  repeat match goal with
         | H : flat_map _ _ = _ |- _ => rewrite H
         end;
  cbn [app]; rewrite ?app_nil_r.

(** The end of one path through [backupSource]: a result, or an error from
    the creation of the destination or from the logger. *)
Ltac leaf_outcome :=
  first
    [ left; eexists; split; [reflexivity|]; simpl; repeat split; congruence
    | right; eexists; split; [reflexivity|];
      first
        [ left; split; [reflexivity|]; rewrite ?in_app_iff; cbn [In]; solve [auto 10]
        | right; do 3 eexists;
          match goal with
          | H : Logger.log _ _ _ = {| outcome := Throw _; host := _; events := _ |}
            |- _ => exact (f_equal outcome H)
          end ] ].

(** One path through [backupSource], from the facts on its steps. *)
Ltac leaf :=
  do 3 eexists; (split; [reflexivity|]); traces;
  split; [reflexivity|];
  split; [repeat (apply Forall_app; split); try assumption; try constructor|];
  split; [try destruct (jsstring_eqb _ _); cbn [app]; solve [auto]|];
  split; [first [left; reflexivity | right; eexists; reflexivity]|];
  leaf_outcome.

Section BackupSource.
Import Config Rclone Backup.
Context {OS : Type} `{Host OS}.

(** One call of the sync executor: it spawns rclone at most once, with the
    built arguments, and exactly once when it resolves; it creates and
    writes nothing of its own. *)
Lemma executeRclone_run (sourcePath destPath : jsstring) (dryRun verbose : bool)
  (os : OS) :
  let args := builtArgs sourcePath destPath dryRun verbose (filtersOn os) in
  exists o os' evs,
    executeRclone sourcePath destPath dryRun verbose os =
    {| outcome := o; host := os'; events := evs |}
    /\ (o = Ret tt \/ exists e, o = Throw e)
    /\ (spawns evs = [] \/ spawns evs = [(js "rclone", args)])
    /\ (o = Ret tt -> spawns evs = [(js "rclone", args)])
    /\ writes evs = [] /\ ownMkdirs evs = [] /\ appendsToLog evs.
Proof.
  cbv zeta. unfold executeRclone. cbv zeta. unfold bind at 1.
  rewrite buildRcloneArgs_run.
  generalize (builtArgs sourcePath destPath dryRun verbose (filtersOn os)).
  intros args.
  unfold bind, spawn, Logger.info, ret, throw.
  destruct verbose; cbn; [log_step|].
  all: try (destruct (cp_spawn (js "rclone") args _ _) as [[code err|msg] os']; cbn;
            try destruct (isZero code); cbn).
  all: do 3 eexists; (split; [reflexivity|]).
  all: traces.
  all: repeat split; eauto; try discriminate.
Qed.

(** Every way [backupSource] can go.  It writes no file and appends only to
    the log; besides the logger's directory it creates at most the
    destination; it spawns at most one rclone, on the source path and the
    destination; and it returns a result about its source, or throws:
    while creating the destination, before any sync, or from the logger. *)
Lemma backupSource_run (source : BackupSource) (dryRun verbose : bool) (os : OS) :
  let dest := join [join [cwd; js "backups"]; hostname; name source] in
  exists o os' evs,
    backupSource source dryRun verbose os =
    {| outcome := o; host := os'; events := evs |}
    /\ writes evs = [] /\ appendsToLog evs
    /\ (ownMkdirs evs = [] \/ ownMkdirs evs = [dest])
    /\ (spawns evs = []
        \/ exists filters,
             spawns evs =
             [(js "rclone", builtArgs (path source) dest dryRun verbose filters)])
    /\ ((exists result,
           o = Ret result /\ Types.source result = source
           /\ (duration result <> None <-> success result = true)
           /\ (error result <> None <-> success result = false))
        \/ (exists e,
              o = Throw e
              /\ ((spawns evs = [] /\ In dest (mkdirs evs))
                  \/ exists m l os0, outcome (Logger.log m l os0) = Throw e))).
Proof.
  cbv zeta. unfold backupSource. cbv zeta.
  unfold bind, tryCatch, now, existsSync, mkdirSync, ret,
    Logger.info, Logger.warn, Logger.success, Logger.error.
  unfold getBackupRoot, getMachineName.
  cbn.
  log_step; [|leaf].
  destruct (fs_existsSync (path source) _); cbn.
  2:{ log_step; leaf. }
  destruct (fs_existsSync (join _) _); cbn;
    [| destruct (fs_mkdirSync _ _) as [[e|] os2]; cbn ].
  2:{ leaf. }
  all: log_step; [|leaf].
  all: log_step; [|leaf].
  all: match goal with
       | |- context [executeRclone ?a ?b ?c ?d ?o] =>
           destruct (executeRclone_run a b c d o)
             as (ox & osx & evx & -> & [-> | [e ->]] & Hsp & _ & Hwr & Hmk & Hap)
       end; cbn.
  all: log_step; try log_step.
  all: destruct Hsp as [Hsp | Hsp].
  all: leaf.
Qed.

(** [backupSource] on a source whose path is missing when it is looked up,
    after the line [Processing: ...] was logged. *)
Lemma backupSource_missing (source : BackupSource) (dryRun verbose : bool) (os : OS) :
  let processing := Logger.info (js "Processing: " ++ name source) os in
  let warned :=
    Logger.warn (js "  Source not found: " ++ path source) (host processing) in
  outcome processing = Ret tt ->
  fs_existsSync (path source) (host processing) = false ->
  backupSource source dryRun verbose os =
  {| outcome := match outcome warned with
                | Ret _ => Ret (notFound source)
                | Throw e => Throw e
                | Exit c => Exit c
                end;
     host := host warned;
     events := events processing ++ events warned |}.
Proof.
  cbv zeta. unfold backupSource. cbv zeta.
  unfold bind, now, existsSync, ret, Logger.info, Logger.warn.
  destruct (Logger.log (js "Processing: " ++ name source) INFO os) as [o1 os1 evs1].
  simpl. intros -> Hmissing. cbn. rewrite Hmissing. cbn.
  destruct (Logger.log _ WARN os1) as [[[]|e|c] os2 evs2]; cbn;
    rewrite ?app_nil_r; reflexivity.
Qed.

(** A returned result is about the source it was asked for, and has a
    duration exactly when it is a success, an error exactly when not. *)
Lemma backupSource_result (source : BackupSource) (dryRun verbose : bool) (os : OS)
  (result : BackupResult) :
  outcome (backupSource source dryRun verbose os) = Ret result ->
  Types.source result = source
  /\ (duration result <> None <-> success result = true)
  /\ (error result <> None <-> success result = false).
Proof.
  destruct (backupSource_run source dryRun verbose os)
    as (o & os' & evs & -> & _ & _ & _ & _ & Hrun).
  simpl. intros ->.
  destruct Hrun as [(r & [= <-] & Hr) | (e & He & _)]; [exact Hr | discriminate He].
Qed.

Lemma backupSource_no_exit (source : BackupSource) (dryRun verbose : bool) (os : OS)
  (c : Z) :
  outcome (backupSource source dryRun verbose os) <> Exit c.
Proof.
  destruct (backupSource_run source dryRun verbose os)
    as (o & os' & evs & -> & _ & _ & _ & _ & Hrun).
  simpl. intros ->.
  destruct Hrun as [(r & Hr & _) | (e & He & _)]; discriminate.
Qed.

(** C5 (as the code has it).  A source whose path does not exist when
    [backupSource] looks it up, after logging [Processing: ...]: no rclone
    is spawned for it and nothing is written or created but by the logger.
    When the warning that follows is logged too, the result is [{success:
    false, error: "Source path not found"}] and the loop goes on with the
    remaining sources, the result appended.  When the warning cannot be
    written the logger's error leaves [backupSource] and the loop: no
    result is recorded and the remaining sources are not processed. *)
Theorem missing_source_recorded (source : BackupSource) (rest : list BackupSource)
  (dryRun verbose : bool) (results : list BackupResult) (os : OS) :
  let processing := Logger.info (js "Processing: " ++ name source) os in
  let warned :=
    Logger.warn (js "  Source not found: " ++ path source) (host processing) in
  outcome processing = Ret tt ->
  fs_existsSync (path source) (host processing) = false ->
  let r := backupSource source dryRun verbose os in
  let loop := backupEach (source :: rest) dryRun verbose results os in
  spawns (events r) = [] /\ writes (events r) = [] /\ ownMkdirs (events r) = []
  /\ appendsToLog (events r)
  /\ (outcome warned = Ret tt ->
      outcome r = Ret {| source := source; success := false;
                         error := Some (js "Source path not found");
                         duration := None |}
      /\ loop =
         let next :=
           backupEach rest dryRun verbose (results ++ [notFound source]) (host r) in
         {| outcome := outcome next; host := host next;
            events := events r ++ events next |})
  /\ (forall e,
        outcome warned = Throw e ->
        outcome r = Throw e /\ outcome loop = Throw e /\ events loop = events r).
Proof.
  cbv zeta. intros Hprocessing Hmissing.
  pose proof (backupSource_missing source dryRun verbose os) as Hrun.
  cbv zeta in Hrun. specialize (Hrun Hprocessing Hmissing).
  cbn [backupEach]. unfold bind. rewrite Hrun. cbn [outcome host events].
  pose proof (log_facts (js "Processing: " ++ name source) INFO os) as Hp.
  pose proof (log_facts (js "  Source not found: " ++ path source) WARN
                (host (Logger.info (js "Processing: " ++ name source) os))) as Hw.
  cbv zeta in Hp, Hw. destruct Hp as (_ & Hp & _), Hw as (_ & Hw & _).
  destruct (untouched_app _ _ Hp Hw) as (Hs & Hwr & Hmk & Hap).
  unfold Logger.info, Logger.warn in *.
  split; [exact Hs|]. split; [exact Hwr|]. split; [exact Hmk|]. split; [exact Hap|].
  split.
  - intros ->. split; [reflexivity|].
    now destruct (backupEach rest dryRun verbose _ _).
  - intros e ->. repeat split.
Qed.

(** C7.  Whatever the state of the machine, hence whatever ran before, the
    only directory [backupSource] creates besides the logger's [logs], and
    the only destination it hands to rclone, is [join(join(cwd, 'backups'),
    hostname, source.name)], and [backupsDir] is [join(cwd, 'backups')]. *)
Theorem destination_path (source : BackupSource) (dryRun verbose : bool) (os : OS) :
  let dest := join [join [cwd; js "backups"]; hostname; name source] in
  let r := backupSource source dryRun verbose os in
  backupsDir getPaths = join [cwd; js "backups"]
  /\ join [backupsDir getPaths; getMachineName; name source] = dest
  /\ (ownMkdirs (events r) = [] \/ ownMkdirs (events r) = [dest])
  /\ (spawns (events r) = []
      \/ exists filters,
           spawns (events r) =
           [(js "rclone",
             [js "sync"; path source; dest; js "--checksum"; js "--delete-during"]
             ++ (if dryRun then [js "--dry-run"] else [])
             ++ (if verbose then [js "--verbose"; js "--progress"] else [])
             ++ (match filters with
                 | Some f => [js "--filter-from"; f]
                 | None => []
                 end))]).
Proof.
  cbv zeta.
  destruct (backupSource_run source dryRun verbose os)
    as (o & os' & evs & -> & _ & _ & Hmk & Hsp & _).
  simpl. split; [reflexivity|]. split; [reflexivity|]. split; [exact Hmk|].
  exact Hsp.
Qed.


End BackupSource.

Lemma missing_source_recorded_witness :
  outcome (Backup.backupSource Demo.sourceB false false Demo.scenarioOS)
  = Ret {| source := Demo.sourceB; success := false;
           error := Some (js "Source path not found"); duration := None |}.
Proof.
  destruct (missing_source_recorded Demo.sourceB [] false false [] Demo.scenarioOS)
    as (_ & _ & _ & _ & Hrecorded & _).
  - vm_compute. reflexivity.
  - vm_compute. reflexivity.
  - apply Hrecorded. vm_compute. reflexivity.
Defined.

(** C5 as stated fails.  On the scenario's machine with room for nine more
    log lines, the run syncs [a], reaches [b], whose path is missing, and
    prints the warning for it; that tenth line cannot be appended to the
    log file, so the logger's error ends the run: no summary is built and
    no result is recorded for [b].  Seen from the loop alone, with room
    for one line: [backupSource] on [b] throws instead of returning the
    result, and the loop throws without going on to [a]. *)
Lemma missing_source_not_recorded :
  fs_existsSync (path Demo.sourceB) Full.scenarioOS = false
  /\ In (WARN, js "  Source not found: /missing")
        (logged (events (Backup.runBackup_summary (Demo.options false false)
                           Full.scenarioOS)))
  /\ outcome (Backup.runBackup_summary (Demo.options false false) Full.scenarioOS)
     = Throw Full.noSpace
  /\ outcome (Backup.backupSource Demo.sourceB false false Full.lastLineOS)
     <> Ret (notFound Demo.sourceB)
  /\ outcome (Backup.backupEach [Demo.sourceB; Demo.sourceA] false false []
                Full.lastLineOS)
     = Throw Full.noSpace.
Proof.
  split; [reflexivity|].
  split; [vm_compute; tauto|].
  split; [vm_compute; reflexivity|].
  split; [vm_compute; discriminate | vm_compute; reflexivity].
Qed.

(** ** Initialisation (config.ts) *)

Section InitializeConfig.
Import Config.
Context {OS : Type} `{Host OS}.

Lemma initializeConfig_run (os : OS) :
  let configPath := getMachineConfigPath in
  let content := JSON_stringify (configToJSON template) in
  let os1 := snd (ensureConfigsDir os) in
  initializeConfig os =
  match fst (ensureConfigsDir os) with
  | Some e =>
      {| outcome := Throw e; host := os1;
         events := [EvMkdir (machineConfigsDir getPaths)] |}
  | None =>
      let made := if fs_existsSync (machineConfigsDir getPaths) os then []
                  else [EvMkdir (machineConfigsDir getPaths)] in
      if fs_existsSync configPath os1 then
        {| outcome := Ret configPath; host := os1; events := made |}
      else
        {| outcome := match fst (fs_writeFileSync configPath content os1) with
                      | None => Ret configPath
                      | Some e => Throw e
                      end;
           host := snd (fs_writeFileSync configPath content os1);
           events := made ++ [EvWriteFile configPath content] |}
  end.
Proof.
  unfold initializeConfig, ensureConfigsDir. cbv zeta.
  generalize (machineConfigsDir getPaths), getMachineConfigPath,
    (JSON_stringify (configToJSON template)).
  intros dir configPath content.
  unfold bind, existsSync, mkdirSync, writeFileSync, ret.
  destruct (fs_existsSync dir os); cbn.
  - destruct (fs_existsSync configPath os); cbn; [reflexivity|].
    now destruct (fs_writeFileSync configPath content os) as [[e|] os3].
  - destruct (fs_mkdirSync dir os) as [[e|] os2]; cbn; [reflexivity|].
    destruct (fs_existsSync configPath os2); cbn; [reflexivity|].
    now destruct (fs_writeFileSync configPath content os2) as [[e|] os3].
Qed.

(** C9.  [initializeConfig] writes at most one file: the template, which
    has exactly one source, not enabled, at the machine's configuration
    path, and only when no file exists there once the directory is in
    place.  When a file exists there it writes nothing, leaves the machine
    as the directory step left it and returns the path; when the directory
    exists too, nothing at all changes. *)
Theorem initializeConfig_no_overwrite (os : OS) :
  let configPath := getMachineConfigPath in
  let content := JSON_stringify (configToJSON template) in
  let os1 := snd (ensureConfigsDir os) in
  let r := initializeConfig os in
  (exists example, sources template = [example] /\ enabled example = false)
  /\ (fs_existsSync configPath os1 = true ->
      writes (events r) = [] /\ host r = os1
      /\ (fst (ensureConfigsDir os) = None -> outcome r = Ret configPath))
  /\ (fs_existsSync (machineConfigsDir getPaths) os = true ->
      fs_existsSync configPath os = true ->
      r = {| outcome := Ret configPath; host := os; events := [] |})
  /\ (writes (events r) <> [] ->
      fs_existsSync configPath os1 = false
      /\ writes (events r) = [(configPath, content)])
  /\ (fst (ensureConfigsDir os) = None ->
      fs_existsSync configPath os1 = false ->
      writes (events r) = [(configPath, content)]).
Proof.
  cbv zeta. rewrite initializeConfig_run. cbv zeta.
  split; [eexists; split; reflexivity|].
  unfold ensureConfigsDir, writes.
  generalize (machineConfigsDir getPaths), getMachineConfigPath,
    (JSON_stringify (configToJSON template)).
  intros dir configPath content.
  destruct (fs_existsSync dir os) eqn:Hdir; cbn.
  - destruct (fs_existsSync configPath os) eqn:Hfile; cbn;
      repeat split; intros; congruence.
  - destruct (fs_mkdirSync dir os) as [[e|] os2]; cbn.
    + repeat split; intros; congruence.
    + destruct (fs_existsSync configPath os2) eqn:Hfile; cbn;
        repeat split; intros; congruence.
Qed.

End InitializeConfig.

Lemma initializeConfig_no_overwrite_witness :
  Config.initializeConfig Demo.scenarioOS =
  {| outcome := Ret Demo.configPath; host := Demo.scenarioOS; events := [] |}.
Proof.
  destruct (initializeConfig_no_overwrite Demo.scenarioOS) as (_ & _ & Hsame & _).
  exact (Hsame eq_refl eq_refl).
Defined.

(** ** The whole run (backup.ts, cli.ts) *)

Section RunBackup.
Import Config Rclone Backup Cli.
Context {OS : Type} `{Host OS}.

Lemma tryCatch_ret_inv {A} (m : M OS A) (handler : jsstring -> M OS A) (os : OS) (a : A) :
  outcome (tryCatch m handler os) = Ret a ->
  outcome (m os) = Ret a
  \/ exists e, outcome (m os) = Throw e /\ outcome (handler e (host (m os))) = Ret a.
Proof.
  unfold tryCatch. destruct (m os) as [[a'| e |c] os1 evs1]; simpl; auto.
  intros Hh. right. exists e. split; [reflexivity|].
  now destruct (handler e os1).
Qed.

Lemma bind_ret_inv_at {A B} (m : M OS A) (k : A -> M OS B) (os : OS) (b : B) :
  outcome (bind m k os) = Ret b ->
  exists a os', outcome (m os) = Ret a /\ outcome (k a os') = Ret b.
Proof.
  intros Hb. apply bind_ret_inv in Hb as (a & Ha & Hb). now exists a, (host (m os)).
Qed.

Ltac bind_inv H :=
  let a := fresh "a" in
  let os' := fresh "os" in
  let Ha := fresh "Ha" in
  apply bind_ret_inv_at in H as (a & os' & Ha & H); cbv beta zeta in H.

Ltac bind_skip H :=
  let a := fresh "a" in
  let os' := fresh "os" in
  apply bind_ret_inv_at in H as (a & os' & _ & H); cbv beta zeta in H.


(** The loop returns one result per source, in the order of the sources,
    after the results it started with. *)
Lemma backupEach_sources (enabledSources : list BackupSource) (dryRun verbose : bool) :
  forall results os rs,
    outcome (backupEach enabledSources dryRun verbose results os) = Ret rs ->
    map source rs = map source results ++ enabledSources.
Proof.
  induction enabledSources as [|s rest IH]; simpl; intros results os rs Hrun.
  - injection Hrun as <-. now rewrite app_nil_r.
  - apply bind_ret_inv in Hrun as (result & Hresult & Hrun).
    apply IH in Hrun. rewrite Hrun, map_app. simpl.
    apply backupSource_result in Hresult as (-> & _).
    now rewrite <- app_assoc.
Qed.

Lemma runBackup_summary_inv (options : CliOptions) (os : OS)
  (cfg : MachineConfig) (s : BackupSummary) :
  outcome (runBackup_summary options os) = Ret (Summarized cfg s) ->
  (opt_checkTools options = false /\ opt_init options = false
   /\ opt_listOnly options = false)
  /\ exists os1 os2 rs finished,
       outcome (loadConfig (Some getMachineConfigPath) os1) = Ret cfg
       /\ outcome (backupEach (getEnabledSources cfg) (opt_dryRun options)
                     (opt_verbose options) [] os2) = Ret rs
       /\ s = {| machine := hostname;
                 startTime := Date_now os;
                 endTime := finished;
                 totalSources := Z.of_nat (List.length (getEnabledSources cfg));
                 successCount :=
                   Z.of_nat (List.length (filter (fun r => success r) rs));
                 failCount :=
                   Z.of_nat (List.length (filter (fun r => negb (success r)) rs));
                 skippedCount :=
                   (Z.of_nat (List.length (sources cfg))
                    - Z.of_nat (List.length (getEnabledSources cfg)))%Z;
                 results := rs;
                 dryRun := opt_dryRun options |}.
Proof.
  unfold runBackup_summary. intros Hrun.
  bind_inv Hrun. simpl in Ha. injection Ha as <-.
  destruct (opt_checkTools options).
  { bind_skip Hrun. discriminate Hrun. }
  destruct (opt_init options).
  { bind_skip Hrun. discriminate Hrun. }
  destruct (opt_listOnly options).
  { bind_skip Hrun. discriminate Hrun. }
  split; [auto|].
  do 9 bind_skip Hrun.
  bind_inv Hrun. rename a into config, Ha into Hconfig.
  apply tryCatch_ret_inv in Hconfig as [Hload | (e & _ & Hcatch)].
  2:{ bind_skip Hcatch. discriminate Hcatch. }
  bind_inv Hload. bind_skip Hload. simpl in Hload. injection Hload as ->.
  destruct (Nat.eqb _ 0).
  { bind_skip Hrun. discriminate Hrun. }
  bind_skip Hrun. bind_inv Hrun. rename a into rs, Ha into Hresults.
  bind_inv Hrun. simpl in Ha. injection Ha as <-.
  do 4 bind_skip Hrun.
  simpl in Hrun. injection Hrun as <- <-.
  eauto 10.
Qed.


(** C4.  Whenever a run builds its summary, the sources of its results are
    the enabled sources of the configuration it loaded, in the order of the
    configuration: one result for each. *)
Theorem results_in_order (options : CliOptions) (os : OS)
  (cfg : MachineConfig) (s : BackupSummary) :
  outcome (runBackup_summary options os) = Ret (Summarized cfg s) ->
  map source (results s) = filter (fun x => enabled x) (sources cfg)
  /\ getEnabledSources cfg = filter (fun x => enabled x) (sources cfg)
  /\ List.length (results s)
     = List.length (filter (fun x => enabled x) (sources cfg))
  /\ exists os1, outcome (loadConfig (Some getMachineConfigPath) os1) = Ret cfg.
Proof.
  intros Hrun. apply runBackup_summary_inv in Hrun
    as (_ & os1 & os2 & rs & finished & Hload & Hresults & ->).
  simpl. apply backupEach_sources in Hresults. simpl in Hresults.
  repeat split; [exact Hresults | | now exists os1].
  now rewrite <- (length_map source), Hresults.
Qed.

(** C1 (as the code has it).  When a run gets as far as its summary, the
    process exits with 0 if no result is a failure or the run is a dry run,
    and with 1 otherwise. *)
Theorem exit_code_at_summary (options : CliOptions) (os : OS)
  (cfg : MachineConfig) (s : BackupSummary) :
  outcome (runBackup_summary options os) = Ret (Summarized cfg s) ->
  let failed := filter (fun r => negb (success r)) (results s) in
  failCount s = Z.of_nat (List.length failed)
  /\ exitCode (main options os)
     = (if Nat.eqb (List.length failed) 0 || opt_dryRun options then 0 else 1)%Z.
Proof.
  intros Hrun. cbv zeta.
  assert (Hfail : failCount s
                  = Z.of_nat (List.length
                                (filter (fun r => negb (success r)) (results s)))).
  { apply runBackup_summary_inv in Hrun
      as (_ & os1 & os2 & rs & finished & _ & _ & ->). reflexivity. }
  split; [exact Hfail|].
  unfold exitCode, main, tryCatch, runBackup, bind.
  destruct (runBackup_summary options os) as [o os' evs]. simpl in Hrun. subst o.
  rewrite Hfail.
  destruct (List.length (filter (fun r => negb (success r)) (results s))) as [|m];
    [reflexivity|].
  replace (0 <? Z.of_nat (S m))%Z with true by (symmetry; apply Z.ltb_lt; lia).
  now destruct (opt_dryRun options).
Qed.

End RunBackup.

(** The scenario of the specification: [a] is synced, [b] is missing, [c]
    is disabled. *)
Example scenario_run :
  outcome (Backup.runBackup_summary (Demo.options false false) Demo.scenarioOS)
  = Ret (Backup.Summarized Demo.scenarioConfig Demo.scenarioSummary).
Proof. vm_compute. reflexivity. Qed.


Lemma results_in_order_witness :
  map source (results Demo.scenarioSummary) = [Demo.sourceA; Demo.sourceB].
Proof.
  destruct (results_in_order (Demo.options false false) Demo.scenarioOS
              Demo.scenarioConfig Demo.scenarioSummary)
    as (Horder & _); [vm_compute; reflexivity|].
  exact Horder.
Defined.

Lemma exit_code_at_summary_witness :
  Cli.exitCode (Cli.main (Demo.options false false) Demo.scenarioOS) = 1%Z
  /\ Cli.exitCode (Cli.main (Demo.options true false) Demo.scenarioOS) = 0%Z.
Proof.
  split.
  - destruct (exit_code_at_summary (Demo.options false false) Demo.scenarioOS
                Demo.scenarioConfig Demo.scenarioSummary)
      as (_ & Hcode); [vm_compute; reflexivity|].
    exact Hcode.
  - destruct (exit_code_at_summary (Demo.options true false) Demo.scenarioOS
                Demo.scenarioConfig Demo.drySummary)
      as (_ & Hcode); [vm_compute; reflexivity|].
    exact Hcode.
Defined.

(** C1 as stated fails: a dry run on a machine without rclone stops on the
    fatal check and exits with 1, not 0. *)
Lemma dry_run_fatal_exit :
  opt_dryRun (Demo.options true false) = true
  /\ Cli.exitCode (Cli.main (Demo.options true false) Demo.toollessOS) <> 0%Z.
Proof. split; [reflexivity|]. vm_compute. discriminate. Qed.

(** * Further properties *)

From Stdlib Require Import DecimalPos DecimalZ.

Example formatTimestamp_example :
  LoggerFormat.formatTimestamp Lab.newYear = js "2026-01-01 09:05:00"
  /\ LoggerFormat.getDateString Lab.christmas = js "20261225".
Proof. split; reflexivity. Qed.

Example lab_template :
  Config.configToJSON (Config.template (OS := Lab.LabOS)) = Lab.templateJSON.
Proof. reflexivity. Qed.

(** ** How the effects of calls compose *)

Section Composition.
Import Config Rclone Backup.
Context {OS : Type} `{Host OS}.

Lemma quiet_syncless {A} (m : M OS A) : quiet m -> syncless m.
Proof. intros Hm os. apply Hm. Qed.

Lemma quiet_bind {A B} (m : M OS A) (k : A -> M OS B) :
  quiet m -> (forall a, quiet (k a)) -> quiet (bind m k).
Proof.
  intros Hm Hk os. unfold bind. specialize (Hm os).
  destruct (m os) as [[a|e|c] os1 evs1]; simpl in *; try exact Hm.
  specialize (Hk a os1). destruct (k a os1) as [o os2 evs2]; simpl in *.
  now apply untouched_app.
Qed.

Lemma syncless_bind {A B} (m : M OS A) (k : A -> M OS B) :
  syncless m -> (forall a, syncless (k a)) -> syncless (bind m k).
Proof.
  intros Hm Hk os. unfold bind. specialize (Hm os).
  destruct (m os) as [[a|e|c] os1 evs1]; simpl in *; try exact Hm.
  specialize (Hk a os1). destruct (k a os1) as [o os2 evs2]; simpl in *.
  now rewrite spawns_app, Hm, Hk.
Qed.

Lemma neverExits_bind {A B} (m : M OS A) (k : A -> M OS B) :
  neverExits m -> (forall a, neverExits (k a)) -> neverExits (bind m k).
Proof.
  intros Hm Hk os c. unfold bind. specialize (Hm os).
  destruct (m os) as [[a|e|c'] os1 evs1]; simpl in *; try discriminate.
  - specialize (Hk a os1 c). now destruct (k a os1) as [o os2 evs2].
  - now destruct (Hm c').
Qed.

Lemma returns_bind {A B} (m : M OS A) (k : A -> M OS B) :
  returns m -> (forall a, returns (k a)) -> returns (bind m k).
Proof.
  intros Hm Hk os. unfold bind. destruct (Hm os) as (a & Ha).
  destruct (m os) as [o os1 evs1]; simpl in Ha; subst o.
  destruct (Hk a os1) as (b & Hb).
  destruct (k a os1) as [o os2 evs2]; simpl in *. now exists b.
Qed.

Lemma exitsWithOne_bind {A B} (m : M OS A) (k : A -> M OS B) :
  exitsWithOne m -> (forall a, exitsWithOne (k a)) -> exitsWithOne (bind m k).
Proof.
  intros Hm Hk os c. unfold bind. specialize (Hm os).
  destruct (m os) as [[a|e|c'] os1 evs1]; simpl in *; try discriminate.
  - specialize (Hk a os1 c). now destruct (k a os1) as [o os2 evs2].
  - intros [= <-]. now apply Hm.
Qed.

Lemma exitsClean_bind {A B} (m : M OS A) (k : A -> M OS B) :
  quiet m -> exitsClean m -> (forall a, exitsClean (k a)) -> exitsClean (bind m k).
Proof.
  intros Hq Hm Hk os c. unfold bind. specialize (Hm os). specialize (Hq os).
  destruct (m os) as [[a|e|c'] os1 evs1]; simpl in *; try discriminate.
  - specialize (Hk a os1 c). destruct (k a os1) as [o os2 evs2]; simpl in *.
    intros Ho. destruct (Hk Ho) as (-> & Hu). split; [reflexivity|].
    now apply untouched_app.
  - intros [= <-]. now apply Hm.
Qed.

Lemma neverExits_exitsClean {A} (m : M OS A) : neverExits m -> exitsClean m.
Proof. intros Hm os c Hc. now destruct (Hm os c). Qed.

Lemma neverExits_exitsWithOne {A} (m : M OS A) : neverExits m -> exitsWithOne m.
Proof. intros Hm os c Hc. now destruct (Hm os c). Qed.

Lemma exitsClean_exitsWithOne {A} (m : M OS A) : exitsClean m -> exitsWithOne m.
Proof. intros Hm os c Hc. exact (proj1 (Hm os c Hc)). Qed.

Lemma returns_neverExits {A} (m : M OS A) : returns m -> neverExits m.
Proof. intros Hm os c Hc. destruct (Hm os) as (a & Ha). congruence. Qed.

Lemma quiet_tryCatch {A} (m : M OS A) (handler : jsstring -> M OS A) :
  quiet m -> (forall e, quiet (handler e)) -> quiet (tryCatch m handler).
Proof.
  intros Hm Hh os. unfold tryCatch. specialize (Hm os).
  destruct (m os) as [[a|e|c] os1 evs1]; simpl in *; try exact Hm.
  specialize (Hh e os1). destruct (handler e os1) as [o os2 evs2]; simpl in *.
  now apply untouched_app.
Qed.

Lemma exitsClean_tryCatch {A} (m : M OS A) (handler : jsstring -> M OS A) :
  quiet m -> exitsClean m -> (forall e, exitsClean (handler e)) ->
  exitsClean (tryCatch m handler).
Proof.
  intros Hq Hm Hh os c. unfold tryCatch. specialize (Hm os). specialize (Hq os).
  destruct (m os) as [[a|e|c'] os1 evs1]; simpl in *; try discriminate.
  - specialize (Hh e os1 c). destruct (handler e os1) as [o os2 evs2]; simpl in *.
    intros Ho. destruct (Hh Ho) as (-> & Hu). split; [reflexivity|].
    now apply untouched_app.
  - intros [= <-]. now apply Hm.
Qed.

(** The leaves. *)

Lemma quiet_ret {A} (a : A) : quiet (ret (OS := OS) a).
Proof. intros os. apply untouched_nil. Qed.

Lemma quiet_throw {A} (e : jsstring) : quiet (throw (OS := OS) (A := A) e).
Proof. intros os. apply untouched_nil. Qed.

Lemma quiet_exit {A} (c : Z) : quiet (process_exit (OS := OS) (A := A) c).
Proof. intros os. apply untouched_nil. Qed.

Lemma quiet_liftO {A} (o : Outcome A) : quiet (liftO (OS := OS) o).
Proof. intros os. apply untouched_nil. Qed.

Lemma quiet_now : quiet now.
Proof. intros os. apply untouched_nil. Qed.

Lemma quiet_existsSync (p : jsstring) : quiet (existsSync p).
Proof. intros os. apply untouched_nil. Qed.

Lemma quiet_readFileSync (p : jsstring) : quiet (readFileSync p).
Proof. intros os. apply untouched_nil. Qed.

Lemma quiet_spawnSync (c : jsstring) (a : list jsstring) : quiet (spawnSync c a).
Proof.
  intros os. unfold spawnSync. destruct (cp_spawnSync c a os).
  repeat split. constructor.
Qed.

Lemma quiet_log (message : jsstring) (level : LogLevel) : quiet (Logger.log message level).
Proof. intros os. apply log_facts. Qed.

Lemma quiet_console_error (message : jsstring) :
  quiet (console_error (OS := OS) message).
Proof. intros os. repeat split. constructor. Qed.

Lemma quiet_separator (title : option jsstring) : quiet (Logger.separator title).
Proof. destruct title as [[|c t]|]; apply quiet_log. Qed.

Lemma returns_ret {A} (a : A) : returns (ret (OS := OS) a).
Proof. intros os. now exists a. Qed.

Lemma returns_now : returns now.
Proof. intros os. now eexists. Qed.

Lemma returns_existsSync (p : jsstring) : returns (existsSync p).
Proof. intros os. now eexists. Qed.

Lemma returns_spawnSync (c : jsstring) (a : list jsstring) : returns (spawnSync c a).
Proof. intros os. unfold spawnSync. destruct (cp_spawnSync c a os). now eexists. Qed.

Lemma returns_log (message : jsstring) (level : LogLevel) :
  logsReliably -> returns (Logger.log message level).
Proof. intros Hlogs os. exists tt. apply Hlogs. Qed.

Lemma returns_separator (title : option jsstring) :
  logsReliably -> returns (Logger.separator title).
Proof. intros Hlogs. destruct title as [[|c t]|]; now apply returns_log. Qed.

Lemma neverExits_log (message : jsstring) (level : LogLevel) :
  neverExits (Logger.log message level).
Proof.
  intros os c. destruct (log_facts message level os) as ([Hr | (e & He)] & _);
    congruence.
Qed.

Lemma neverExits_separator (title : option jsstring) : neverExits (Logger.separator title).
Proof. destruct title as [[|c t]|]; apply neverExits_log. Qed.

Lemma neverExits_ret {A} (a : A) : neverExits (ret (OS := OS) a).
Proof. intros os c. discriminate. Qed.

Lemma neverExits_tryCatch {A} (m : M OS A) (handler : jsstring -> M OS A) :
  neverExits m -> (forall e, neverExits (handler e)) -> neverExits (tryCatch m handler).
Proof.
  intros Hm Hh os c. unfold tryCatch. specialize (Hm os).
  destruct (m os) as [[a|e|c'] os1 evs1]; simpl in *; try discriminate.
  - specialize (Hh e os1 c). now destruct (handler e os1) as [o os2 evs2].
  - now destruct (Hm c').
Qed.

Lemma neverExits_throw {A} (e : jsstring) : neverExits (throw (OS := OS) (A := A) e).
Proof. intros os c. discriminate. Qed.

Lemma neverExits_readFileSync (p : jsstring) : neverExits (readFileSync p).
Proof. intros os c. unfold readFileSync. simpl. now destruct (fs_readFileSync p os). Qed.

Lemma neverExits_mkdirSync (p : jsstring) : neverExits (mkdirSync p).
Proof.
  intros os c. unfold mkdirSync. destruct (fs_mkdirSync p os) as [[e|] os']; discriminate.
Qed.

Lemma neverExits_writeFileSync (p content : jsstring) : neverExits (writeFileSync p content).
Proof.
  intros os c. unfold writeFileSync.
  destruct (fs_writeFileSync p content os) as [[e|] os']; discriminate.
Qed.

Lemma exitsClean_exit {A} : exitsClean (process_exit (OS := OS) (A := A) 1).
Proof. intros os c [= <-]. split; [reflexivity | apply untouched_nil]. Qed.

End Composition.

Create HintDb effects.

#[global] Hint Resolve quiet_ret quiet_throw quiet_exit quiet_liftO quiet_now
  quiet_existsSync quiet_readFileSync quiet_spawnSync quiet_log quiet_separator
  quiet_console_error returns_ret returns_now returns_existsSync returns_spawnSync
  returns_log returns_separator neverExits_throw neverExits_readFileSync
  neverExits_mkdirSync neverExits_writeFileSync neverExits_log neverExits_separator
  neverExits_ret exitsClean_exit : effects.

(** A goal about a sequence of calls, taken apart call by call. *)
Ltac effects :=
  cbv zeta;
  repeat first
    [ solve [ unfold Logger.info, Logger.warn, Logger.success, Logger.error;
              auto with effects ]
    | solve [ apply returns_neverExits; unfold Logger.info, Logger.warn,
                Logger.success, Logger.error; auto with effects ]
    | solve [ apply quiet_syncless; unfold Logger.info, Logger.warn,
                Logger.success, Logger.error; auto with effects ]
    | solve [ apply neverExits_exitsWithOne; auto with effects ]
    | apply quiet_bind; [|intros ?]
    | apply syncless_bind; [|intros ?]
    | apply returns_bind; [|intros ?]
    | apply neverExits_bind; [|intros ?]
    | apply exitsWithOne_bind; [|intros ?]
    | match goal with
      | |- _ (if ?b then _ else _) => destruct b
      | |- _ (match ?x with _ => _ end) => destruct x
      end ].

(** ** What each operation may do *)

Section Operations.
Import Config Rclone Backup.
Context {OS : Type} `{Host OS}.

Lemma quiet_findRclone : quiet findRclone.
Proof. unfold findRclone. effects. Qed.

Lemma returns_findRclone : returns findRclone.
Proof. unfold findRclone. effects. Qed.

Lemma quiet_getRcloneVersion : quiet getRcloneVersion.
Proof. unfold getRcloneVersion. effects. Qed.

Lemma returns_getRcloneVersion : returns getRcloneVersion.
Proof. unfold getRcloneVersion. effects. Qed.

Lemma quiet_checkRclone : quiet checkRclone.
Proof.
  unfold checkRclone. effects;
    auto using quiet_findRclone, quiet_getRcloneVersion with effects.
Qed.

Lemma returns_checkRclone : returns checkRclone.
Proof.
  unfold checkRclone. effects;
    auto using returns_findRclone, returns_getRcloneVersion with effects.
Qed.

Lemma validateConfig_no_exit (data : JValue) (c : Z) : validateConfig data <> Exit c.
Proof.
  destruct (isObject data) eqn:Hobj.
  2:{ destruct data; try discriminate Hobj; discriminate. }
  rewrite (validateConfig_object _ Hobj).
  destruct (negb _); [discriminate|].
  destruct (negb _); [discriminate|].
  destruct (mapValidateSource _ 0) eqn:Hmap; simpl; try discriminate.
  now apply mapValidateSource_no_exit in Hmap.
Qed.

Lemma quiet_loadConfig (configPath : option jsstring) : quiet (loadConfig configPath).
Proof. unfold loadConfig. effects. Qed.

Lemma neverExits_loadConfig (configPath : option jsstring) :
  neverExits (loadConfig configPath).
Proof.
  unfold loadConfig. effects.
  intros os c. apply validateConfig_no_exit.
Qed.

Lemma quiet_runToolCheck : quiet runToolCheck.
Proof. unfold runToolCheck. effects; auto using quiet_checkRclone. Qed.

Lemma returns_runToolCheck : logsReliably -> returns runToolCheck.
Proof. intros Hlogs. unfold runToolCheck. effects; auto using returns_checkRclone. Qed.

Lemma quiet_listSources (sources : list BackupSource) : quiet (listSources sources).
Proof. induction sources as [|s rest IH]; simpl; effects. Qed.

Lemma returns_listSources (sources : list BackupSource) :
  logsReliably -> returns (listSources sources).
Proof. intros Hlogs. induction sources as [|s rest IH]; simpl; effects. Qed.

Lemma neverExits_runToolCheck : neverExits runToolCheck.
Proof. unfold runToolCheck. effects; auto using returns_checkRclone. Qed.

Lemma neverExits_listSources (sources : list BackupSource) :
  neverExits (listSources sources).
Proof. induction sources as [|s rest IH]; simpl; effects. Qed.

Lemma quiet_runListSources : quiet runListSources.
Proof.
  unfold runListSources. effects;
    auto using quiet_loadConfig, quiet_listSources.
Qed.

End Operations.

#[global] Hint Resolve quiet_findRclone returns_findRclone quiet_getRcloneVersion
  returns_getRcloneVersion quiet_checkRclone returns_checkRclone quiet_loadConfig
  neverExits_loadConfig quiet_runToolCheck returns_runToolCheck quiet_listSources
  returns_listSources quiet_runListSources neverExits_runToolCheck
  neverExits_listSources : effects.

(** A goal about the exits of a sequence of calls, taken apart call by call. *)
Ltac clean :=
  cbv zeta;
  repeat first
    [ apply exitsClean_exit
    | solve [ apply neverExits_exitsClean; effects ]
    | solve [ effects ]
    | apply exitsClean_bind; [ | | intros ?]
    | apply exitsClean_tryCatch; [ | | intros ?]
    | apply quiet_tryCatch; [ | intros ?]
    | match goal with
      | |- exitsClean (if ?b then _ else _) => destruct b
      end ].

Section Modes.
Import Config Rclone Backup Cli.
Context {OS : Type} `{Host OS}.

Lemma quiet_validateBackupRoot : quiet validateBackupRoot.
Proof. unfold validateBackupRoot. effects. Qed.

Lemma returns_validateBackupRoot : returns validateBackupRoot.
Proof. unfold validateBackupRoot. effects. Qed.

Lemma syncless_mkdirSync (p : jsstring) : syncless (mkdirSync p).
Proof. intros os. unfold mkdirSync. now destruct (fs_mkdirSync p os). Qed.

Lemma syncless_writeFileSync (p content : jsstring) : syncless (writeFileSync p content).
Proof. intros os. unfold writeFileSync. now destruct (fs_writeFileSync p content os). Qed.

Lemma exitsClean_runListSources : exitsClean runListSources.
Proof. unfold runListSources. clean. Qed.

Lemma neverExits_initializeConfig : neverExits initializeConfig.
Proof. unfold initializeConfig. effects. Qed.

Lemma syncless_initializeConfig : syncless initializeConfig.
Proof.
  unfold initializeConfig. effects;
    auto using syncless_mkdirSync, syncless_writeFileSync.
Qed.

Lemma neverExits_runInit : neverExits runInit.
Proof. unfold runInit. effects. Qed.

Lemma syncless_runInit : syncless runInit.
Proof.
  unfold runInit. effects;
    auto using syncless_mkdirSync, syncless_writeFileSync.
Qed.

Lemma neverExits_backupSource (source : BackupSource) (dryRun verbose : bool) :
  neverExits (backupSource source dryRun verbose).
Proof. intros os c. apply backupSource_no_exit. Qed.

Lemma neverExits_backupEach (enabledSources : list BackupSource) (dryRun verbose : bool) :
  forall results, neverExits (backupEach enabledSources dryRun verbose results).
Proof.
  induction enabledSources as [|s rest IH]; intros results; simpl.
  - effects.
  - apply neverExits_bind; [apply neverExits_backupSource | intros r; apply IH].
Qed.

End Modes.

#[global] Hint Resolve quiet_validateBackupRoot returns_validateBackupRoot
  neverExits_runInit syncless_runInit neverExits_backupSource neverExits_backupEach
  neverExits_initializeConfig syncless_initializeConfig : effects.

(** ** The modes of a run and its exit code (backup.ts, cli.ts) *)

Section ExitCodes.
Import Config Rclone Backup Cli.
Context {OS : Type} `{Host OS}.

Lemma exitsClean_runBackup_summary (options : CliOptions) :
  exitsClean (runBackup_summary options).
Proof.
  unfold runBackup_summary. clean.
Qed.

Lemma exitsWithOne_runBackup (options : CliOptions) : exitsWithOne (runBackup options).
Proof.
  unfold runBackup. apply exitsWithOne_bind.
  - apply exitsClean_exitsWithOne, exitsClean_runBackup_summary.
  - intros [|cfg s].
    + apply neverExits_exitsWithOne, returns_neverExits, returns_ret.
    + destruct (_ && _).
      * now intros os c [= <-].
      * apply neverExits_exitsWithOne, returns_neverExits, returns_ret.
Qed.

(** X1.  Whatever the options and the machine, [process.exit] is only ever
    called with 1: the process ends with code 0 or 1, and no error escapes
    the command line's handler. *)
Theorem exit_code_zero_or_one (options : CliOptions) (os : OS) :
  (exitCode (main options os) = 0%Z \/ exitCode (main options os) = 1%Z)
  /\ (forall e, outcome (main options os) <> Throw e).
Proof.
  unfold exitCode, main, tryCatch.
  pose proof (exitsWithOne_runBackup options os) as Hexit.
  destruct (runBackup options os) as [[u|e|c] os1 evs1]; simpl in *.
  - split; [now left | discriminate].
  - split; [now right | discriminate].
  - rewrite (Hexit c eq_refl). split; [now right | discriminate].
Qed.

(** X2.  A run that [runBackup] ends with [process.exit] before its summary
    (a fatal check, or a missing configuration in list mode) exits with 1
    and has spawned no sync and written no file; all it has created or
    appended to is the logger's: the [logs] directory and the day's log
    file. *)
Theorem fatal_exit_untouched (options : CliOptions) (os : OS) (c : Z) :
  outcome (runBackup_summary options os) = Exit c ->
  c = 1%Z
  /\ spawns (events (runBackup_summary options os)) = []
  /\ writes (events (runBackup_summary options os)) = []
  /\ Forall (eq (logsDir getPaths)) (mkdirs (events (runBackup_summary options os)))
  /\ appendsToLog (events (runBackup_summary options os)).
Proof.
  intros Hexit.
  destruct (exitsClean_runBackup_summary options os c Hexit)
    as (-> & Hspawns & Hwrites & Hmkdirs & Happends).
  repeat split; try assumption. now apply ownMkdirs_nil.
Qed.

End ExitCodes.

Lemma fatal_exit_untouched_witness :
  spawns (events (Backup.runBackup_summary (Demo.options true false) Demo.toollessOS)) = []
  /\ mkdirs (events (Backup.runBackup_summary (Demo.options true false) Demo.toollessOS))
     <> [].
Proof.
  split.
  - apply (fatal_exit_untouched (Demo.options true false) Demo.toollessOS 1).
    vm_compute. reflexivity.
  - vm_compute. discriminate.
Defined.

(** ** Probing for rclone (rclone.ts) *)

Section Probing.
Import Config Rclone Backup.
Context {OS : Type} `{Host OS}.

Lemma probes_app (a b : list Event) : probes (a ++ b) = probes a ++ probes b.
Proof. apply flat_map_app. Qed.

Lemma logged_app (a b : list Event) : logged (a ++ b) = logged a ++ logged b.
Proof. apply flat_map_app. Qed.

Lemma firstLine_no_line_feed (s : jsstring) : ~ In 10%N (firstLine s).
Proof.
  induction s as [|c s IH]; simpl; [tauto|].
  destruct (N.eqb c 10) eqn:Hc; simpl; [tauto|].
  intros [Heq | Hin]; [|now apply IH].
  subst c. discriminate Hc.
Qed.

Lemma checkRclone_run (os : OS) :
  let finder := if win32 then js "where" else js "which" in
  let found := fst (cp_spawnSync finder [js "rclone"] os) in
  exists tc os' evs,
    checkRclone os = {| outcome := Ret tc; host := os'; events := evs |}
    /\ rcloneInstalled tc = isZero (status found) && truthy (stdout found)
    /\ allGood tc = rcloneInstalled tc
    /\ (rcloneInstalled tc = true <-> rclonePath tc <> None)
    /\ (rcloneInstalled tc = false -> rcloneVersion tc = None)
    /\ (forall p, rclonePath tc = Some p -> ~ In 10%N p)
    /\ probes evs
       = (finder, [js "rclone"])
           :: (if rcloneInstalled tc then [(js "rclone", [js "version"])] else []).
Proof.
  cbv zeta. unfold checkRclone, findRclone, getRcloneVersion. cbv zeta.
  unfold bind, ret, spawnSync, probes.
  destruct (cp_spawnSync _ [js "rclone"] os) as [[st out] os1]; cbn.
  destruct (isZero st && truthy out); cbn.
  - destruct (cp_spawnSync (js "rclone") [js "version"] os1) as [[st2 out2] os2]; cbn.
    destruct (isZero st2 && truthy out2); cbn;
      try destruct (versionMatch (textOf out2)); cbn;
      do 3 eexists; (split; [reflexivity|]); cbn;
      repeat split; try discriminate; try congruence;
      intros p [= <-]; apply firstLine_no_line_feed.
  - do 3 eexists. split; [reflexivity|]. cbn.
    repeat split; try discriminate; try congruence.
Qed.

(** X14.  [checkRclone] always returns.  rclone counts as installed exactly
    when [which rclone] ([where rclone] on Windows) exits with 0 and prints
    something; [allGood] says the same; the path is there exactly then, and
    is one line; the version is asked for, with [rclone version], only
    then, so that a machine without rclone is probed once. *)
Theorem checkRclone_invariants (os : OS) :
  let finder := if win32 then js "where" else js "which" in
  let found := fst (cp_spawnSync finder [js "rclone"] os) in
  exists tc,
    outcome (checkRclone os) = Ret tc
    /\ rcloneInstalled tc = isZero (status found) && truthy (stdout found)
    /\ allGood tc = rcloneInstalled tc
    /\ (rcloneInstalled tc = true <-> rclonePath tc <> None)
    /\ (rcloneInstalled tc = false -> rcloneVersion tc = None)
    /\ (forall p, rclonePath tc = Some p -> ~ In 10%N p)
    /\ Traces.probes (events (checkRclone os))
       = (finder, [js "rclone"])
           :: (if rcloneInstalled tc then [(js "rclone", [js "version"])] else []).
Proof.
  cbv zeta.
  destruct (checkRclone_run os) as (tc & os' & evs & -> & Hrest). now exists tc.
Qed.

End Probing.

Section SpecialModes.
Import Config Rclone Backup Cli.
Context {OS : Type} `{Host OS}.

Lemma syncless_tryCatch {A} (m : M OS A) (handler : jsstring -> M OS A) :
  syncless m -> (forall e, syncless (handler e)) -> syncless (tryCatch m handler).
Proof.
  intros Hm Hh os. unfold tryCatch. specialize (Hm os).
  destruct (m os) as [[a|e|c] os1 evs1]; simpl in *; try exact Hm.
  specialize (Hh e os1). destruct (handler e os1) as [o os2 evs2]; simpl in *.
  now rewrite spawns_app, Hm, Hh.
Qed.

Lemma quiet_handler (message : jsstring) :
  quiet (bind (console_error (OS := OS) (js "Fatal error: " ++ message))
              (fun _ => process_exit (OS := OS) (A := unit) 1)).
Proof. apply quiet_bind; [apply quiet_console_error | intros _; apply quiet_exit]. Qed.

Lemma syncless_runBackup_special (options : CliOptions) :
  opt_checkTools options = true \/ opt_init options = true
  \/ opt_listOnly options = true ->
  syncless (runBackup options).
Proof.
  intros Hmode. unfold runBackup, runBackup_summary.
  destruct (opt_checkTools options), (opt_init options), (opt_listOnly options);
    try (destruct Hmode as [Hm | [Hm | Hm]]; discriminate Hm);
    effects.
Qed.

Lemma quiet_runBackup_readonly (options : CliOptions) :
  opt_checkTools options = true
  \/ (opt_init options = false /\ opt_listOnly options = true) ->
  quiet (runBackup options).
Proof.
  intros Hmode. unfold runBackup, runBackup_summary.
  destruct (opt_checkTools options), (opt_init options), (opt_listOnly options);
    try (destruct Hmode as [Hm | [Hm Hm']]; discriminate);
    effects.
Qed.

(** X3.  With [--check-tools], [--init] or [--list-only] no sync is ever
    spawned; with [--check-tools], or [--list-only] without [--init], no
    file is written either, and all that is created or appended to is the
    logger's: the [logs] directory and the day's log file. *)
Theorem special_modes_never_sync (options : CliOptions) (os : OS) :
  opt_checkTools options = true \/ opt_init options = true
  \/ opt_listOnly options = true ->
  spawns (events (main options os)) = []
  /\ (opt_checkTools options = true \/ opt_init options = false ->
      writes (events (main options os)) = []
      /\ Forall (eq (logsDir getPaths)) (mkdirs (events (main options os)))
      /\ appendsToLog (events (main options os))).
Proof.
  intros Hmode. split.
  - apply syncless_tryCatch.
    + now apply syncless_runBackup_special.
    + intros e. apply quiet_syncless, quiet_handler.
  - intros Hread.
    assert (Hq : quiet (main options)).
    { apply quiet_tryCatch; [|intros e; apply quiet_handler].
      apply quiet_runBackup_readonly.
      destruct Hread as [Hc | Hi]; [now left|].
      destruct Hmode as [Hc | [Hi' | Hl]]; [now left | congruence | now right]. }
    destruct (Hq os) as (_ & Hwrites & Hmkdirs & Happends).
    repeat split; try assumption. now apply ownMkdirs_nil.
Qed.

Lemma runBackup_checkTools (options : CliOptions) (os : OS) :
  opt_checkTools options = true -> runBackup options os = runToolCheck os.
Proof.
  intros Hmode. unfold runBackup, runBackup_summary. rewrite Hmode. cbv zeta.
  unfold bind, now, ret.
  destruct (runToolCheck os) as [[[]|e|c] os1 evs1]; cbn; now rewrite ?app_nil_r.
Qed.

(** X4.  [--check-tools] never calls [process.exit], rclone found or not:
    the check only logs its finding.  So on a machine where the log can
    always be written it ends with exit code 0.  Once its title line is
    logged, the commands it runs are [which rclone] ([where rclone] on
    Windows) and, exactly when that exits with 0 and prints something,
    [rclone version]. *)
Theorem check_tools_exit_zero (options : CliOptions) (os : OS) :
  opt_checkTools options = true ->
  let finder := if win32 then js "where" else js "which" in
  let title := Logger.separator (Some (js "Tool Check")) os in
  let found := fst (cp_spawnSync finder [js "rclone"] (host title)) in
  let installed := isZero (status found) && truthy (stdout found) in
  (forall c, outcome (runBackup options os) <> Exit c)
  /\ (logsReliably -> exitCode (main options os) = 0%Z)
  /\ (outcome title = Ret tt ->
      probes (events (main options os))
      = (finder, [js "rclone"])
          :: (if installed then [(js "rclone", [js "version"])] else [])).
Proof.
  intros Hmode. cbv zeta. split; [|split].
  - rewrite (runBackup_checkTools options os Hmode). apply neverExits_runToolCheck.
  - intros Hlogs. unfold exitCode, main, tryCatch.
    rewrite (runBackup_checkTools options os Hmode).
    destruct (returns_runToolCheck Hlogs os) as (u & Hu).
    destruct (runToolCheck os) as [o os' evs]. simpl in Hu. now subst o.
  - unfold main, tryCatch. rewrite (runBackup_checkTools options os Hmode).
    unfold runToolCheck. cbv zeta.
    unfold bind, now, ret, console_error, process_exit, Logger.separator,
      Logger.info, Logger.success, Logger.error.
    change (isEmpty (js "Tool Check")) with false. cbn.
    pose proof (log_facts (js "=== " ++ js "Tool Check" ++ js " ===") INFO os) as Hfacts.
    cbv zeta in Hfacts. destruct Hfacts as (_ & _ & Htitle & _).
    destruct (Logger.log (js "=== " ++ js "Tool Check" ++ js " ===") INFO os)
      as [o0 os0 evs0].
    cbn [events] in Htitle. cbn. intros ->. cbn.
    destruct (checkRclone_run os0) as (tc & os1 & evs1 & -> & Hinst & _ & _ & _ & _ & Hpr).
    cbn. rewrite <- Hinst.
    destruct (rcloneInstalled tc); cbn.
    + log_step; [|traces; reflexivity].
      destruct (rclonePath tc) as [[|c p]|]; cbn;
        destruct (rcloneVersion tc) as [[|d v]|]; cbn;
        repeat log_step; traces; reflexivity.
    + log_step; [|traces; reflexivity].
      log_step; traces; reflexivity.
Qed.

End SpecialModes.

Lemma demo_logs_reliably : logsReliably (OS := Demo.DemoOS).
Proof.
  intros message level os. rewrite log_exact. cbv zeta.
  now destruct (fs_existsSync _ _).
Qed.

Lemma lab_logs_reliably : logsReliably (OS := Lab.LabOS).
Proof.
  intros message level os. rewrite log_exact. cbv zeta.
  now destruct (fs_existsSync _ _).
Qed.

Lemma special_modes_never_sync_witness :
  spawns (events (Cli.main
                    {| opt_dryRun := false; opt_verbose := false; opt_listOnly := true;
                       opt_init := false; opt_checkTools := false |}
                    Demo.scenarioOS)) = [].
Proof.
  apply (special_modes_never_sync
           {| opt_dryRun := false; opt_verbose := false; opt_listOnly := true;
              opt_init := false; opt_checkTools := false |} Demo.scenarioOS).
  right. right. reflexivity.
Defined.

Lemma check_tools_exit_zero_witness :
  Cli.exitCode (Cli.main
                  {| opt_dryRun := false; opt_verbose := false; opt_listOnly := false;
                     opt_init := false; opt_checkTools := true |}
                  Demo.toollessOS) = 0%Z
  /\ probes (events (Cli.main
                       {| opt_dryRun := false; opt_verbose := false;
                          opt_listOnly := false; opt_init := false;
                          opt_checkTools := true |}
                       Demo.toollessOS))
     = [(js "which", [js "rclone"])].
Proof.
  destruct (check_tools_exit_zero
              {| opt_dryRun := false; opt_verbose := false; opt_listOnly := false;
                 opt_init := false; opt_checkTools := true |} Demo.toollessOS eq_refl)
    as (_ & Hexit & Hprobes).
  split.
  - apply Hexit, demo_logs_reliably.
  - apply Hprobes. vm_compute. reflexivity.
Defined.

(** ** Loading a configuration (config.ts) *)

Section LoadConfig.
Import Config.
Context {OS : Type} `{Host OS}.

Lemma loadConfig_run (configPath : option jsstring) (os : OS) :
  let path := match configPath with Some p => p | None => getMachineConfigPath end in
  loadConfig configPath os =
  {| outcome :=
       if fs_existsSync path os then
         match fs_readFileSync path os with
         | inr e => Throw e
         | inl content =>
             match JSON_parse content with
             | inr e => Throw (js "Failed to parse configuration file: " ++ path
                               ++ [10%N] ++ e)
             | inl data => validateConfig data
             end
         end
       else
         Throw (js "Configuration file not found: " ++ path ++ [10%N]
                ++ js "Run with --init flag to create initial configuration");
     host := os;
     events := [] |}.
Proof.
  unfold loadConfig. cbv zeta.
  generalize (match configPath with Some p => p | None => getMachineConfigPath end).
  intros path.
  unfold bind, existsSync, readFileSync, throw, ret, liftO.
  destruct (fs_existsSync path os); cbn; [|reflexivity].
  destruct (fs_readFileSync path os) as [content|e]; cbn; [|reflexivity].
  destruct (JSON_parse content) as [data|e]; cbn; [|reflexivity].
  now destruct (validateConfig data).
Qed.

(** X5.  [loadConfig] only reads: it leaves the machine as it found it,
    spawns, creates and writes nothing and never ends the process.  It
    throws [Configuration file not found: <path>], with the hint to run
    [--init], when the path does not exist, without reading; the read
    error when the file cannot be read; [Failed to parse configuration
    file: <path>] and the parser's message when the text is not JSON; and
    otherwise it is the validator's outcome on the parsed data. *)
Theorem loadConfig_outcomes (configPath : option jsstring) (os : OS) :
  let path := match configPath with Some p => p | None => getMachineConfigPath end in
  let r := loadConfig configPath os in
  host r = os /\ events r = [] /\ (forall c, outcome r <> Exit c)
  /\ (fs_existsSync path os = false ->
      outcome r =
      Throw (js "Configuration file not found: " ++ path ++ [10%N]
             ++ js "Run with --init flag to create initial configuration"))
  /\ (forall e,
        fs_existsSync path os = true -> fs_readFileSync path os = inr e ->
        outcome r = Throw e)
  /\ (forall content e,
        fs_existsSync path os = true -> fs_readFileSync path os = inl content ->
        JSON_parse content = inr e ->
        outcome r =
        Throw (js "Failed to parse configuration file: " ++ path ++ [10%N] ++ e))
  /\ (forall content data,
        fs_existsSync path os = true -> fs_readFileSync path os = inl content ->
        JSON_parse content = inl data ->
        outcome r = validateConfig data).
Proof.
  cbv zeta. rewrite loadConfig_run. cbv zeta. simpl.
  split; [reflexivity|]. split; [reflexivity|]. split.
  { intros c. pose proof (neverExits_loadConfig configPath os c) as Hc.
    now rewrite loadConfig_run in Hc. }
  repeat split.
  - now intros ->.
  - now intros e -> ->.
  - now intros content e -> -> ->.
  - now intros content data -> -> ->.
Qed.

End LoadConfig.

Lemma loadConfig_outcomes_witness :
  outcome (Config.loadConfig None Lab.freshOS)
  = Throw (js "Configuration file not found: C:\syncr\config\machine-configs\H2.json"
           ++ [10%N] ++ js "Run with --init flag to create initial configuration")
  /\ outcome (Config.loadConfig (Some Demo.configPath) Demo.scenarioOS)
     = Ret Demo.scenarioConfig.
Proof.
  split.
  - destruct (loadConfig_outcomes None Lab.freshOS) as (_ & _ & _ & Hmissing & _).
    exact (Hmissing eq_refl).
  - destruct (loadConfig_outcomes (Some Demo.configPath) Demo.scenarioOS)
      as (_ & _ & _ & _ & _ & _ & Hvalid).
    exact (Hvalid Demo.scenarioText Demo.scenarioJSON eq_refl eq_refl eq_refl).
Defined.

(** ** What validation stores, and validating it again (config.ts) *)

Section Stored.
Import Config.

Lemma dropWhile_first {A} (p : A -> bool) (l : list A) (c : A) (r : list A) :
  dropWhile p l = c :: r -> p c = false.
Proof.
  induction l as [|x l IH]; simpl; [discriminate|].
  destruct (p x) eqn:Hx; [exact IH|]. now intros [= <- _].
Qed.

Lemma dropWhile_keeps_last {A} (p : A -> bool) (l : list A) (c : A) :
  p c = false -> exists x, dropWhile p (l ++ [c]) = x ++ [c].
Proof.
  intros Hc. induction l as [|y l IH]; simpl.
  - rewrite Hc. now exists [].
  - destruct (p y); [exact IH|]. now exists (y :: l).
Qed.

Lemma trimmed_ends (c d : N) (m : jsstring) :
  isWhiteSpace c = false -> isWhiteSpace d = false -> trimmed (c :: m ++ [d]) = true.
Proof.
  intros Hc Hd. unfold trimmed. rewrite Hc.
  change (c :: m ++ [d]) with ((c :: m) ++ [d]).
  now rewrite last_last, Hd.
Qed.

Lemma trimmed_trim (s : jsstring) : trimmed (trim s) = true.
Proof.
  unfold trim, trimStart, trimEnd.
  destruct (dropWhile isWhiteSpace s) as [|c t] eqn:Hs; [reflexivity|].
  pose proof (dropWhile_first isWhiteSpace s c t Hs) as Hc.
  simpl rev.
  destruct (dropWhile_keeps_last isWhiteSpace (rev t) c Hc) as (x & Hx).
  rewrite Hx, rev_unit.
  destruct x as [|d x'].
  - simpl. now rewrite Hc.
  - assert (Hd : isWhiteSpace d = false).
    { apply (dropWhile_first isWhiteSpace (rev t ++ [c]) d (x' ++ [c])).
      exact Hx. }
    simpl rev. now apply trimmed_ends.
Qed.

Lemma populated_wellFormed (src : JValue) (out : BackupSource) :
  populated src out -> wellFormed out.
Proof.
  intros (n & p & e & _ & _ & _ & Hn & Hp & ->). unfold wellFormed. simpl.
  repeat split; auto using trimmed_trim.
Qed.

(** X6.  Every source of a configuration that validation returns has a
    non-empty name and a non-empty path, both without white space at
    either end, and there are as many sources as the input lists. *)
Theorem validated_sources_wellFormed (data : JValue) (cfg : MachineConfig) :
  validateConfig data = Ret cfg ->
  Forall wellFormed (sources cfg)
  /\ List.length (sources cfg)
     = List.length (itemsOf (getProp data (js "sources"))).
Proof.
  intros Hret.
  destruct (isObject data) eqn:Hobj.
  2:{ destruct data; try discriminate Hobj; discriminate Hret. }
  rewrite (validateConfig_object _ Hobj) in Hret.
  destruct (negb (isString _)); [discriminate|].
  destruct (negb (isArray _)); [discriminate|].
  destruct (mapValidateSource _ 0) as [outs| |] eqn:Hmap; try discriminate.
  injection Hret as <-. simpl.
  apply mapValidateSource_ret in Hmap as [Hall _].
  split; [|symmetry; eapply Forall2_length; exact Hall].
  induction Hall as [|src out items outs Hpop _ IH]; constructor; [|exact IH].
  now apply populated_wellFormed with src.
Qed.

Lemma validateSource_sourceToJSON (s : BackupSource) (i : nat) :
  wellFormed s -> validateSource (sourceToJSON s) i = Ret s.
Proof.
  intros (Hn & Htn & Hp & Htp).
  rewrite validateSource_object by reflexivity.
  change (getProp (sourceToJSON s) (js "name")) with (Some (JStr (name s))).
  change (getProp (sourceToJSON s) (js "path")) with (Some (JStr (path s))).
  change (getProp (sourceToJSON s) (js "enabled")) with (Some (JBool (enabled s))).
  simpl. rewrite !trim_trimmed by assumption.
  destruct s as [[|c n] [|d p] e]; simpl in *; congruence.
Qed.

Lemma mapValidateSource_sourceToJSON (srcs : list BackupSource) :
  Forall wellFormed srcs ->
  forall i, mapValidateSource (map sourceToJSON srcs) i = Ret srcs.
Proof.
  induction 1 as [|s srcs Hs _ IH]; intros i; simpl; [reflexivity|].
  now rewrite (validateSource_sourceToJSON s i Hs), IH.
Qed.

Lemma validateConfig_reserialised (cfg : MachineConfig) :
  Forall wellFormed (sources cfg) ->
  validateConfig (configToJSON cfg) = Ret cfg.
Proof.
  intros Hsrcs. rewrite validateConfig_object by reflexivity.
  change (getProp (configToJSON cfg) (js "machine_name"))
    with (Some (JStr (machine_name cfg))).
  change (getProp (configToJSON cfg) (js "sources"))
    with (Some (JArr (map sourceToJSON (sources cfg)))).
  simpl. rewrite (mapValidateSource_sourceToJSON _ Hsrcs). simpl.
  now destruct cfg.
Qed.

(** X7.  A configuration whose sources are well formed, written as JSON the
    way [initializeConfig] writes its template, validates to itself. *)
Theorem validateConfig_configToJSON (cfg : MachineConfig) :
  Forall wellFormed (sources cfg) ->
  validateConfig (configToJSON cfg) = Ret cfg.
Proof. apply validateConfig_reserialised. Qed.

End Stored.

Lemma validated_sources_wellFormed_witness :
  Forall wellFormed (sources Demo.scenarioConfig).
Proof.
  apply (validated_sources_wellFormed Demo.scenarioJSON Demo.scenarioConfig).
  reflexivity.
Defined.

Lemma validateConfig_configToJSON_witness :
  Config.validateConfig (Config.configToJSON Demo.scenarioConfig) = Ret Demo.scenarioConfig.
Proof.
  apply (validateConfig_configToJSON Demo.scenarioConfig).
  repeat constructor; discriminate.
Defined.

(** ** Initialising, then loading (config.ts) *)

Section InitThenLoad.
Import Config.
Context {OS : Type} `{Host OS}.

Lemma template_wellFormed : Forall wellFormed (sources template).
Proof.
  unfold template. simpl. constructor; [|constructor].
  unfold wellFormed. simpl. destruct win32; repeat split; discriminate.
Qed.

(** X8.  On a machine where a written file exists and reads back as
    written, and where [JSON.parse] undoes [JSON.stringify] on the
    template: when [initializeConfig] writes the template and returns,
    [loadConfig] on the machine it leaves returns the template: the host
    name and the one example source, not enabled. *)
Theorem init_then_load (os : OS) (configPath : jsstring) :
  (forall p c os0 os1,
      fs_writeFileSync p c os0 = (None, os1) ->
      fs_existsSync p os1 = true /\ fs_readFileSync p os1 = inl c) ->
  JSON_parse (JSON_stringify (configToJSON template)) = inl (configToJSON template) ->
  outcome (initializeConfig os) = Ret configPath ->
  writes (events (initializeConfig os)) <> [] ->
  configPath = getMachineConfigPath
  /\ outcome (loadConfig None (host (initializeConfig os))) = Ret template
  /\ outcome (loadConfig (Some configPath) (host (initializeConfig os))) = Ret template.
Proof.
  intros Hfs Hjson. rewrite initializeConfig_run. cbv zeta.
  destruct (fst (ensureConfigsDir os)) as [e|]; [discriminate|].
  destruct (fs_existsSync getMachineConfigPath (snd (ensureConfigsDir os))).
  { simpl. intros _ Hwrote. exfalso. apply Hwrote.
    match goal with |- context [if ?b then _ else _] => destruct b end;
      reflexivity. }
  simpl.
  destruct (fs_writeFileSync getMachineConfigPath _ (snd (ensureConfigsDir os)))
    as [[e|] os1] eqn:Hwrite; simpl; [discriminate|].
  intros [= <-] _.
  destruct (Hfs _ _ _ _ Hwrite) as (Hexists & Hread).
  split; [reflexivity|].
  rewrite !loadConfig_run. cbv zeta. simpl.
  rewrite Hexists, Hread, Hjson.
  split; apply validateConfig_reserialised, template_wellFormed.
Qed.

End InitThenLoad.

Lemma init_then_load_witness :
  outcome (Config.loadConfig None (host (Config.initializeConfig Lab.freshOS)))
  = Ret {| machine_name := js "H2";
           sources := [ {| name := js "ExampleProject";
                           path := js "C:\Path\To\Project\_docs";
                           enabled := false |} ] |}.
Proof.
  destruct (init_then_load Lab.freshOS
              (js "C:\syncr\config\machine-configs\H2.json")) as (_ & Hload & _).
  - intros p c os0 os1 [= <-]. simpl. rewrite !jsstring_eqb_eq_refl. split; reflexivity.
  - reflexivity.
  - reflexivity.
  - discriminate.
  - exact Hload.
Defined.

(** ** The sync executor (rclone.ts) *)

Section Executor.
Import Config Rclone.
Context {OS : Type} `{Host OS}.

(** [executeRclone], step by step: in verbose mode the command line is
    logged first, and the logger's error, if any, rejects the promise
    before rclone is spawned. *)
Lemma executeRclone_exact (sourcePath destPath : jsstring) (dryRun verbose : bool)
  (os : OS) :
  let args := builtArgs sourcePath destPath dryRun verbose (filtersOn os) in
  let shown := Logger.info (js "  Command: rclone " ++ joinWith (js " ") args) os in
  let os0 := if verbose then host shown else os in
  executeRclone sourcePath destPath dryRun verbose os =
  match (if verbose then outcome shown else Ret tt) with
  | Ret _ =>
      {| outcome :=
           match fst (cp_spawn (js "rclone") args verbose os0) with
           | SpawnClosed code stderrData =>
               if isZero code then Ret tt
               else Throw (if isEmpty (if negb verbose then stderrData else [])
                           then js "rclone exited with code " ++ codeToString code
                           else (if negb verbose then stderrData else []))
           | SpawnError message => Throw (js "Failed to spawn rclone: " ++ message)
           end;
         host := snd (cp_spawn (js "rclone") args verbose os0);
         events := (if verbose then events shown else [])
                   ++ [EvSpawn (js "rclone") args] |}
  | Throw e => {| outcome := Throw e; host := host shown; events := events shown |}
  | Exit c => {| outcome := Exit c; host := host shown; events := events shown |}
  end.
Proof.
  cbv zeta. unfold executeRclone. cbv zeta. unfold bind at 1.
  rewrite buildRcloneArgs_run.
  generalize (builtArgs sourcePath destPath dryRun verbose (filtersOn os)).
  intros args.
  unfold bind, spawn, Logger.info, ret, throw.
  destruct verbose; cbn.
  - destruct (Logger.log _ INFO os) as [[[]|e|c] os1 evs1]; cbn; try reflexivity.
    destruct (cp_spawn (js "rclone") args true _) as [[code err|msg] os']; cbn;
      try destruct (isZero code); reflexivity.
  - destruct (cp_spawn (js "rclone") args false _) as [[code err|msg] os']; cbn;
      try destruct (isZero code); try destruct err; reflexivity.
Qed.

(** X9.  How a sync ends, from how the rclone process ends, once rclone is
    spawned (in verbose mode: once the command line is logged).  Exit code
    0 resolves.  Any other exit code, or none (a signal), rejects: with
    what rclone wrote on its standard error when that was captured (not
    verbose) and is not empty, otherwise with [rclone exited with code
    <code>]; in verbose mode the text of the standard error is never in
    the message.  A failure to start rclone rejects with [Failed to spawn
    rclone: <message>]. *)
Theorem executeRclone_outcome (sourcePath destPath : jsstring) (dryRun verbose : bool)
  (os os' : OS) (settled : SpawnOutcome) :
  let args := builtArgs sourcePath destPath dryRun verbose (filtersOn os) in
  let shown := Logger.info (js "  Command: rclone " ++ joinWith (js " ") args) os in
  let os0 := if verbose then host shown else os in
  (verbose = true -> outcome shown = Ret tt) ->
  cp_spawn (js "rclone") args verbose os0 = (settled, os') ->
  let r := executeRclone sourcePath destPath dryRun verbose os in
  host r = os'
  /\ (forall err, settled = SpawnClosed (Some 0%Z) err -> outcome r = Ret tt)
  /\ (forall code err,
        settled = SpawnClosed code err -> isZero code = false ->
        verbose = false -> err <> [] ->
        outcome r = Throw err)
  /\ (forall code err,
        settled = SpawnClosed code err -> isZero code = false ->
        verbose = true \/ err = [] ->
        outcome r = Throw (js "rclone exited with code " ++ codeToString code))
  /\ (forall message,
        settled = SpawnError message ->
        outcome r = Throw (js "Failed to spawn rclone: " ++ message)).
Proof.
  cbv zeta. intros Hshown Hspawn. rewrite executeRclone_exact. cbv zeta.
  destruct verbose; [rewrite (Hshown eq_refl)|]; rewrite Hspawn; simpl; repeat split.
  - now intros err ->.
  - discriminate.
  - now intros code err -> ->.
  - now intros message ->.
  - now intros err ->.
  - intros code err -> -> _ Herr. simpl. now destruct err.
  - intros code err -> -> [Hv | ->]; [discriminate Hv | reflexivity].
  - now intros message ->.
Qed.

(** X10.  The command shown is the command run: [getRcloneCommandString]
    gives [rclone] followed by the very arguments [executeRclone] spawns
    rclone with, and in verbose mode the one line logged is [Command: ]
    and that string; without verbose nothing is logged.  rclone is
    spawned once, unless, in verbose mode, that line could not be written:
    then nothing is spawned and the logger's error rejects the sync. *)
Theorem command_shown_is_command_run (sourcePath destPath : jsstring)
  (dryRun verbose : bool) (os : OS) :
  exists args,
    outcome (buildRcloneArgs sourcePath destPath dryRun verbose os) = Ret args
    /\ outcome (getRcloneCommandString sourcePath destPath dryRun verbose os)
       = Ret (js "rclone " ++ joinWith (js " ") args)
    /\ logged (events (executeRclone sourcePath destPath dryRun verbose os))
       = (if verbose
          then [(INFO, js "  Command: " ++ js "rclone " ++ joinWith (js " ") args)]
          else [])
    /\ (spawns (events (executeRclone sourcePath destPath dryRun verbose os))
        = [(js "rclone", args)]
        \/ (verbose = true
            /\ spawns (events (executeRclone sourcePath destPath dryRun verbose os)) = []
            /\ exists e,
                 outcome (Logger.info (js "  Command: rclone " ++ joinWith (js " ") args)
                            os) = Throw e
                 /\ outcome (executeRclone sourcePath destPath dryRun verbose os)
                    = Throw e)).
Proof.
  exists (builtArgs sourcePath destPath dryRun verbose (filtersOn os)).
  rewrite executeRclone_exact. cbv zeta.
  unfold getRcloneCommandString, bind. rewrite buildRcloneArgs_run.
  cbn [outcome host events ret].
  split; [reflexivity|]. split; [reflexivity|].
  generalize (builtArgs sourcePath destPath dryRun verbose (filtersOn os)).
  intros args. unfold Logger.info.
  destruct verbose; [|split; [reflexivity | now left]].
  pose proof (log_facts (js "  Command: rclone " ++ joinWith (js " ") args) INFO os)
    as Hfacts.
  cbv zeta in Hfacts. destruct Hfacts as ([Ho | (e & Ho)] & (Hs & _) & _ & Hl).
  - rewrite Ho. cbn [events]. rewrite logged_app, spawns_app, Hl, Hs.
    split; [reflexivity | now left].
  - rewrite Ho. cbn [events outcome]. rewrite Hl, Hs.
    split; [reflexivity|]. right. split; [reflexivity|]. split; [reflexivity|].
    now exists e.
Qed.

End Executor.

Lemma executeRclone_outcome_witness :
  outcome (Rclone.executeRclone (js "D:\Notes") (js "C:\syncr\backups\H2\notes")
             false false Lab.notesOS)
  = Throw (js "Failed to copy: disk full")
  /\ outcome (Rclone.executeRclone (js "D:\Notes") (js "C:\syncr\backups\H2\notes")
                false true Lab.notesOS)
     = Throw (js "rclone exited with code 1").
Proof.
  split.
  - destruct (executeRclone_outcome (js "D:\Notes") (js "C:\syncr\backups\H2\notes")
                false false Lab.notesOS Lab.notesOS
                (SpawnClosed (Some 1%Z) (js "Failed to copy: disk full")))
      as (_ & _ & Hstderr & _); [discriminate | reflexivity |].
    apply (Hstderr (Some 1%Z) (js "Failed to copy: disk full") eq_refl eq_refl eq_refl).
    discriminate.
  - destruct (executeRclone_outcome (js "D:\Notes") (js "C:\syncr\backups\H2\notes")
                false true Lab.notesOS
                (host (Rclone.executeRclone (js "D:\Notes")
                         (js "C:\syncr\backups\H2\notes") false true Lab.notesOS))
                (SpawnClosed (Some 1%Z) (js "Failed to copy: disk full")))
      as (_ & _ & _ & Hcode & _);
      [intros _; apply lab_logs_reliably | vm_compute; reflexivity |].
    apply (Hcode (Some 1%Z) (js "Failed to copy: disk full") eq_refl eq_refl).
    now left.
Defined.

(** ** A source that is there (backup.ts) *)

Section PresentSource.
Import Config Rclone Backup.
Context {OS : Type} `{Host OS}.

Lemma bind_events {A B} (m : M OS A) (k : A -> M OS B) (os : OS) :
  exists rest, events (bind m k os) = events (m os) ++ rest.
Proof.
  unfold bind. destruct (m os) as [[a|e|c] os1 evs1]; simpl.
  - destruct (k a os1) as [o os2 evs2]. now exists evs2.
  - exists []. now rewrite app_nil_r.
  - exists []. now rewrite app_nil_r.
Qed.

(** X11.  A dry run still creates a missing destination directory: once
    [Processing: ...] is logged, whenever the source path exists and its
    destination does not, the next thing [backupSource] does is to call
    [mkdirSync] on the destination, [dryRun] set or not. *)
Theorem dry_run_creates_destination (source : BackupSource) (dryRun verbose : bool)
  (os : OS) :
  let processing := Logger.info (js "Processing: " ++ name source) os in
  let dest := join [join [cwd; js "backups"]; hostname; name source] in
  outcome processing = Ret tt ->
  fs_existsSync (path source) (host processing) = true ->
  fs_existsSync dest (host processing) = false ->
  exists after,
    events (backupSource source dryRun verbose os)
    = events processing ++ EvMkdir dest :: after.
Proof.
  cbv zeta. unfold backupSource. cbv zeta. unfold Logger.info.
  unfold getBackupRoot, getMachineName.
  change (backupsDir getPaths) with (join [cwd; js "backups"]).
  generalize (join [join [cwd; js "backups"]; hostname; name source]). intros dest.
  unfold bind at 1. cbn [now outcome host events].
  unfold bind at 1.
  destruct (Logger.log (js "Processing: " ++ name source) INFO os) as [o1 os1 evs1].
  cbn [outcome host events]. intros -> Hthere Hdest.
  unfold bind at 1. cbn [existsSync outcome host events]. rewrite Hthere.
  cbn [negb]. unfold bind at 1. cbn [existsSync outcome host events]. rewrite Hdest.
  cbn [negb].
  match goal with
  | |- context [bind ?m ?k os1] =>
      destruct (bind_events m k os1) as (rest & Hrest);
      destruct (bind m k os1) as [o2 os2 evs2]
  end.
  cbn [events] in *. subst evs2. exists rest.
  unfold mkdirSync. now destruct (fs_mkdirSync dest os1).
Qed.

(** A step through the next log call of a goal, on a machine where the log
    can always be written. *)
Ltac log_ok Hlogs :=
  match goal with
  | |- context [Logger.log ?m ?l ?o] =>
      let Ho := fresh "Ho" in
      let ox := fresh "o" in
      let osx := fresh "os" in
      let evx := fresh "evs" in
      is_var o;
      pose proof (Hlogs m l o) as Ho;
      destruct (Logger.log m l o) as [ox osx evx];
      cbn [outcome] in Ho; subst ox; cbn
  end.

(** X12.  On a machine where the log can always be written, for a source
    that is there and whose destination is in place (it existed, or was
    created without error), the result records how the sync ended: when it
    resolves, a success whose duration is the clock after the sync minus
    the clock on entry; when it rejects, a failure whose error is the
    rejection's message.  A failed sync is never thrown further. *)
Theorem sync_outcome_recorded (source : BackupSource) (dryRun verbose : bool) (os : OS) :
  logsReliably ->
  let os1 := host (Logger.info (js "Processing: " ++ name source) os) in
  let dest := join [join [cwd; js "backups"]; hostname; name source] in
  let step := if fs_existsSync dest os1 then (None, os1) else fs_mkdirSync dest os1 in
  let os3 := host (Logger.info (js "  To:   " ++ dest)
                     (host (Logger.info (js "  From: " ++ path source) (snd step)))) in
  let sync := executeRclone (path source) dest dryRun verbose os3 in
  fs_existsSync (path source) os1 = true ->
  fst step = None ->
  (outcome sync = Ret tt ->
   outcome (backupSource source dryRun verbose os)
   = Ret {| source := source; success := true; error := None;
            duration := Some (Date_now (host sync) - Date_now os)%Z |})
  /\ (forall e,
        outcome sync = Throw e ->
        outcome (backupSource source dryRun verbose os)
        = Ret {| source := source; success := false; error := Some e;
                 duration := None |}).
Proof.
  intros Hlogs. cbv zeta. unfold backupSource. cbv zeta.
  unfold bind, tryCatch, now, existsSync, mkdirSync, ret,
    Logger.info, Logger.warn, Logger.success, Logger.error.
  unfold getBackupRoot, getMachineName.
  change (backupsDir getPaths) with (join [cwd; js "backups"]).
  generalize (join [join [cwd; js "backups"]; hostname; name source]). intros dest.
  cbn. log_ok Hlogs. intros ->. cbn.
  destruct (fs_existsSync dest _); cbn;
    [intros _ | destruct (fs_mkdirSync dest _) as [[e|] os2]; cbn;
                intros Hstep; [discriminate Hstep|]].
  all: log_ok Hlogs; log_ok Hlogs.
  all: destruct (executeRclone (path source) dest dryRun verbose _)
         as [[[]|e|c] os5 evs5]; cbn; try log_ok Hlogs.
  all: split; [intros Hsync | intros e' Hsync]; try discriminate Hsync;
         try reflexivity.
  all: now injection Hsync as ->.
Qed.

Lemma backupSource_bounds (source : BackupSource) (dryRun verbose : bool) (os : OS) :
  let r := backupSource source dryRun verbose os in
  (List.length (spawns (events r)) <= 1)%nat
  /\ (List.length (ownMkdirs (events r)) <= 1)%nat
  /\ writes (events r) = []
  /\ appendsToLog (events r).
Proof.
  cbv zeta.
  destruct (backupSource_run source dryRun verbose os)
    as (o & os' & evs & -> & Hw & Ha & Hm & Hs & _).
  cbn [events].
  destruct Hm as [-> | ->], Hs as [-> | (filters & ->)]; simpl; auto.
Qed.

(** X13.  The loop over the enabled sources spawns rclone at most once per
    source and writes no file; besides the logger's [logs] directory it
    creates at most one directory per source, and it appends to nothing
    but the day's log file. *)
Theorem backupEach_bounds (enabledSources : list BackupSource) (dryRun verbose : bool)
  (results : list BackupResult) (os : OS) :
  let r := backupEach enabledSources dryRun verbose results os in
  (List.length (spawns (events r)) <= List.length enabledSources)%nat
  /\ (List.length (ownMkdirs (events r)) <= List.length enabledSources)%nat
  /\ writes (events r) = []
  /\ appendsToLog (events r).
Proof.
  cbv zeta. revert results os.
  induction enabledSources as [|s rest IH]; intros results os; cbn [backupEach].
  - repeat split; auto. constructor.
  - unfold bind.
    pose proof (backupSource_bounds s dryRun verbose os) as (Hs & Hm & Hw & Ha).
    destruct (backupSource s dryRun verbose os) as [[r|e|c] os1 evs1];
      cbn [events] in *.
    + specialize (IH (results ++ [r]) os1).
      destruct (backupEach rest dryRun verbose (results ++ [r]) os1)
        as [o os2 evs2]; cbn [events List.length] in *.
      destruct IH as (IHs & IHm & IHw & IHa).
      rewrite spawns_app, ownMkdirs_app, writes_app, !length_app, Hw, IHw.
      repeat split; try lia. now apply appendsToLog_app.
    + cbn [List.length]. repeat split; auto; lia.
    + cbn [List.length]. repeat split; auto; lia.
Qed.

End PresentSource.
Lemma dry_run_creates_destination_witness :
  In (js "/srv/syncr/backups/H1/a")
     (mkdirs (events (Backup.backupSource Demo.sourceA true false Demo.scenarioOS))).
Proof.
  destruct (dry_run_creates_destination Demo.sourceA true false Demo.scenarioOS)
    as (after & Hevents).
  - vm_compute. reflexivity.
  - vm_compute. reflexivity.
  - vm_compute. reflexivity.
  - rewrite Hevents, mkdirs_app. apply in_or_app. right. left. reflexivity.
Defined.

Lemma sync_outcome_recorded_witness :
  outcome (Backup.backupSource Lab.notes false false Lab.notesOS)
  = Ret {| source := Lab.notes; success := false;
           error := Some (js "Failed to copy: disk full"); duration := None |}.
Proof.
  destruct (sync_outcome_recorded Lab.notes false false Lab.notesOS lab_logs_reliably)
    as (_ & Hfailed); [vm_compute; reflexivity | vm_compute; reflexivity |].
  apply Hfailed. vm_compute. reflexivity.
Defined.

(** ** Initialising again (backup.ts) *)

Section InitAgain.
Import Config Rclone Backup.
Context {OS : Type} `{Host OS}.

(** X15.  [--init] on a machine that already has its configuration: when the
    directory and the file exist once the first line is logged, [runInit]
    writes no file and creates and appends to nothing but the logger's
    directory and log file; and when it returns, as it does wherever the
    log can always be written, it has logged [Configuration created:
    <path>] and the hint to edit the file all the same. *)
Theorem runInit_existing_reports_created (os : OS) :
  let os1 := host (Logger.info
                     (js "Initializing backup configuration for machine: " ++ hostname)
                     os) in
  fs_existsSync (machineConfigsDir getPaths) os1 = true ->
  fs_existsSync getMachineConfigPath os1 = true ->
  untouched (events (runInit os))
  /\ (logsReliably -> outcome (runInit os) = Ret tt)
  /\ (outcome (runInit os) = Ret tt ->
      logged (events (runInit os))
      = [ (INFO, js "Initializing backup configuration for machine: " ++ hostname);
          (SUCCESS, js "Configuration created: " ++ getMachineConfigPath);
          (INFO,
           js "Edit the file and add your source directories, then set enabled = true") ]).
Proof.
  cbv zeta. intros Hdir Hfile.
  assert (Hrun : exists o os' evs,
             runInit os = {| outcome := o; host := os'; events := evs |}
             /\ untouched evs
             /\ (logsReliably -> o = Ret tt)
             /\ (o = Ret tt ->
                 logged evs
                 = [ (INFO,
                      js "Initializing backup configuration for machine: " ++ hostname);
                     (SUCCESS, js "Configuration created: " ++ getMachineConfigPath);
                     (INFO,
                      js "Edit the file and add your source directories, then set enabled = true") ])).
  { revert Hdir Hfile.
    unfold runInit. cbv zeta. unfold getMachineName, Logger.info, Logger.success.
    unfold bind at 1.
    pose proof (log_facts
                  (js "Initializing backup configuration for machine: " ++ hostname)
                  INFO os) as Hfacts.
    cbv zeta in Hfacts. destruct Hfacts as (Ho & Hu & _ & Hl).
    destruct (Logger.log
                (js "Initializing backup configuration for machine: " ++ hostname)
                INFO os) as [o1 os1 evs1] eqn:Hlog1.
    cbn [outcome host events] in *. intros Hdir Hfile.
    destruct Ho as [-> | (e & ->)]; cbv beta iota.
    2:{ do 3 eexists. split; [reflexivity|]. split; [exact Hu|]. split; [|discriminate].
        intros Hlogs. pose proof (f_equal outcome Hlog1) as Hthrown.
        rewrite Hlogs in Hthrown. discriminate Hthrown. }
    unfold bind at 1. rewrite initializeConfig_run. cbv zeta.
    unfold ensureConfigsDir. rewrite Hdir. cbn [fst snd]. rewrite Hfile.
    unfold bind at 1. cbn [existsSync outcome host events]. rewrite Hfile.
    unfold bind.
    log_step; [log_step|].
    all: do 3 eexists; (split; [reflexivity|]).
    all: split; [traces; repeat split; repeat (apply Forall_app; split);
                 try assumption; constructor|].
    all: split;
      [ intros Hlogs;
        try match goal with
            | Hx : Logger.log _ _ _ = {| outcome := Throw _; host := _; events := _ |}
              |- _ => apply (f_equal outcome) in Hx; rewrite Hlogs in Hx;
                      discriminate Hx
            end;
        reflexivity
      | intros Hret; try discriminate Hret; traces; reflexivity ]. }
  destruct Hrun as (o & os' & evs & -> & Hrest). exact Hrest.
Qed.

End InitAgain.

Lemma runInit_existing_reports_created_witness :
  outcome (Backup.runInit Demo.scenarioOS) = Ret tt
  /\ writes (events (Backup.runInit Demo.scenarioOS)) = [].
Proof.
  destruct (runInit_existing_reports_created Demo.scenarioOS) as (Hquiet & Hret & _);
    [vm_compute; reflexivity | vm_compute; reflexivity |].
  split; [apply Hret, demo_logs_reliably | apply Hquiet].
Defined.

(** ** Numbers in messages and dates in file names (config.ts, logger.ts) *)

Section Numbers.

Lemma js_inj (a b : string) : js a = js b -> a = b.
Proof.
  unfold js. intros Hab.
  rewrite <- (string_of_list_ascii_of_string a), <- (string_of_list_ascii_of_string b).
  f_equal. revert Hab.
  generalize (list_ascii_of_string a) (list_ascii_of_string b).
  induction l as [|x l IH]; intros [|y l']; simpl; try discriminate; [reflexivity|].
  intros [= Hxy Hl]. f_equal; [|now apply IH].
  rewrite <- (ascii_N_embedding x), <- (ascii_N_embedding y). now rewrite Hxy.
Qed.

Lemma to_int_proper (n : Z) :
  Z.to_int n <> Decimal.Pos Decimal.Nil /\ Z.to_int n <> Decimal.Neg Decimal.Nil.
Proof.
  destruct n as [|p|p]; simpl; split; try discriminate;
    intros [= Hp]; now apply (Unsigned.to_uint_nonnil p).
Qed.

Lemma numToString_inj (n m : Z) : numToString n = numToString m -> n = m.
Proof.
  unfold numToString. intros Hnm. apply js_inj in Hnm.
  apply DecimalZ.to_int_inj.
  destruct (to_int_proper n) as (Hn1 & Hn2), (to_int_proper m) as (Hm1 & Hm2).
  pose proof (NilZero.isi (Z.to_int n) Hn1 Hn2) as Hn.
  pose proof (NilZero.isi (Z.to_int m) Hm1 Hm2) as Hm.
  rewrite Hnm in Hn. congruence.
Qed.

Lemma string_of_uint_no_space (d : Decimal.uint) :
  ~ In " "%char (list_ascii_of_string (NilEmpty.string_of_uint d)).
Proof.
  induction d; simpl; try tauto; intros [Hc | Hin]; try discriminate; tauto.
Qed.

Lemma numToString_no_space (n : Z) : ~ In 32%N (numToString n).
Proof.
  unfold numToString, js. intros Hin. apply in_map_iff in Hin as (c & Hc & Hin).
  assert (c = " "%char) as ->.
  { rewrite <- (ascii_N_embedding c), Hc. reflexivity. }
  revert Hin. destruct (Z.to_int n) as [d|d]; simpl.
  - destruct d; simpl; try (intros [Hc' | Hin]; try discriminate);
      try tauto;
      try (revert Hin; apply string_of_uint_no_space).
  - intros [Hc' | Hin]; [discriminate|].
    revert Hin. destruct d; simpl; try (intros [Hc' | Hin]; try discriminate);
      try tauto;
      try (revert Hin; apply string_of_uint_no_space).
Qed.

Lemma split_at_space (a b x y : jsstring) :
  ~ In 32%N a -> ~ In 32%N b -> a ++ 32%N :: x = b ++ 32%N :: y -> a = b /\ x = y.
Proof.
  revert b. induction a as [|c a IH]; intros [|d b] Ha Hb; simpl.
  - now intros [= ->].
  - intros [= <- _]. exfalso. apply Hb. now left.
  - intros [= -> _]. exfalso. apply Ha. now left.
  - intros [= -> Heq].
    destruct (IH b) as (-> & ->); auto; intros Hin; [apply Ha | apply Hb]; now right.
Qed.

Lemma app_inj_length {A} (a a' b b' : list A) :
  List.length a = List.length a' -> a ++ b = a' ++ b' -> a = a' /\ b = b'.
Proof.
  revert a'. induction a as [|x a IH]; intros [|y a']; simpl; try discriminate.
  - auto.
  - intros [= Hlen] [= -> Heq]. destruct (IH a' Hlen Heq) as (-> & ->). auto.
Qed.

End Numbers.

Section SourceErrors.
Import Config.

Lemma validateSource_throw_form (src : JValue) (i : nat) (e : jsstring) :
  validateSource src i = Throw e ->
  exists rest,
    e = js "Source at index" ++ 32%N :: numToString (Z.of_nat i) ++ 32%N :: rest.
Proof.
  destruct (isObject src) eqn:Hobj.
  - rewrite (validateSource_object _ _ Hobj).
    destruct (negb _); [intros [= <-]; now eexists|].
    destruct (negb _); [intros [= <-]; now eexists|].
    destruct (negb _); [intros [= <-]; now eexists | discriminate].
  - rewrite (validateSource_not_object _ _ Hobj). intros [= <-]. now eexists.
Qed.

(** X16.  The error of a refused source tells its index: the message thrown
    for an element at one index is never thrown for an element at another
    index, whatever the elements are. *)
Theorem source_error_identifies_index (src src' : JValue) (i j : nat) (e : jsstring) :
  i <> j ->
  validateSource src i = Throw e ->
  validateSource src' j <> Throw e.
Proof.
  intros Hij Hi Hj. apply Hij.
  apply validateSource_throw_form in Hi as (rest & ->).
  apply validateSource_throw_form in Hj as (rest' & Heq).
  apply app_inv_head in Heq. injection Heq as Heq.
  apply split_at_space in Heq as (Hnum & _); try apply numToString_no_space.
  apply numToString_inj in Hnum. now apply Nat2Z.inj.
Qed.

End SourceErrors.

Lemma source_error_identifies_index_witness :
  Config.validateSource Demo.blankPath 1
  <> Throw (js "Source at index 0 missing valid 'path' field").
Proof.
  apply (source_error_identifies_index Demo.blankPath Demo.blankPath 0 1).
  - discriminate.
  - reflexivity.
Defined.

(** ** The text of the log (logger.ts) *)

Section LogText.
Import LoggerFormat.

Lemma pad2_table :
  forallb (fun n => Nat.eqb (List.length (pad2 n)) 2 && Z.eqb (twoDigits (pad2 n)) n)
          (map Z.of_nat (seq 0 100)) = true.
Proof. vm_compute. reflexivity. Qed.

Lemma pad2_spec (n : Z) :
  (0 <= n < 100)%Z -> List.length (pad2 n) = 2%nat /\ twoDigits (pad2 n) = n.
Proof.
  intros Hn. pose proof pad2_table as Htable.
  rewrite forallb_forall in Htable.
  specialize (Htable n). rewrite andb_true_iff, Nat.eqb_eq, Z.eqb_eq in Htable.
  apply Htable. apply in_map_iff. exists (Z.to_nat n).
  split; [lia | apply in_seq; lia].
Qed.

Lemma pad2_inj (n m : Z) :
  (0 <= n < 100)%Z -> (0 <= m < 100)%Z -> pad2 n = pad2 m -> n = m.
Proof.
  intros Hn Hm Heq.
  destruct (pad2_spec n Hn) as (_ & <-), (pad2_spec m Hm) as (_ & <-).
  now rewrite Heq.
Qed.

(** X17.  Each day has its own log file: for times with month and day in
    range, the file names [syncr_<date>.log] of two times are equal exactly
    when year, month and day are. *)
Theorem log_file_per_day (t t' : LocalTime) :
  validTime t -> validTime t' ->
  (js "syncr_" ++ getDateString t ++ js ".log"
   = js "syncr_" ++ getDateString t' ++ js ".log"
   <-> fullYear t = fullYear t' /\ month t = month t' /\ date t = date t').
Proof.
  intros (Hm & Hd & _) (Hm' & Hd' & _). split.
  - intros Heq. apply app_inv_head, app_inv_tail in Heq.
    unfold getDateString in Heq. cbv zeta in Heq.
    fold (pad2 (month t + 1)) (pad2 (date t)) (pad2 (month t' + 1)) (pad2 (date t'))
      in Heq.
    destruct (pad2_spec (month t + 1)) as (Lm & _); [lia|].
    destruct (pad2_spec (date t)) as (Ld & _); [lia|].
    destruct (pad2_spec (month t' + 1)) as (Lm' & _); [lia|].
    destruct (pad2_spec (date t')) as (Ld' & _); [lia|].
    assert (Hlen : List.length (numToString (fullYear t))
                   = List.length (numToString (fullYear t'))).
    { apply (f_equal (@List.length _)) in Heq. rewrite !length_app in Heq. lia. }
    apply (app_inj_length _ _ _ _ Hlen) in Heq as (Hy & Heq).
    apply app_inj_length in Heq as (Hmo & Hda); [|congruence].
    apply numToString_inj in Hy.
    apply pad2_inj in Hmo; [|lia|lia]. apply pad2_inj in Hda; [|lia|lia].
    repeat split; lia.
  - intros (Hy & Hmo & Hda). unfold getDateString. now rewrite Hy, Hmo, Hda.
Qed.

Lemma year_table :
  forallb (fun n => Nat.eqb (List.length (numToString n)) 4)
          (map (fun k => (1000 + Z.of_nat k)%Z) (seq 0 (Z.to_nat 9000))) = true.
Proof. vm_compute. reflexivity. Qed.

Lemma year_width (y : Z) :
  (1000 <= y <= 9999)%Z -> List.length (numToString y) = 4%nat.
Proof.
  intros Hy. pose proof year_table as Htable.
  rewrite forallb_forall in Htable.
  apply Nat.eqb_eq, Htable, in_map_iff. exists (Z.to_nat (y - 1000)).
  split; [lia | apply in_seq; lia].
Qed.

(** X18.  For a four-digit year and fields in range the timestamp has the 19
    characters of [YYYY-MM-DD HH:MM:SS] and the date in the file name has
    8, so the level of each line of the log file starts after a prefix of
    23 characters. *)
Theorem timestamp_width (t : LocalTime) :
  validTime t -> (1000 <= fullYear t <= 9999)%Z ->
  List.length (formatTimestamp t) = 19%nat
  /\ List.length (getDateString t) = 8%nat
  /\ forall level message,
       firstn 23 (logMessage t level message)
       = js "[" ++ formatTimestamp t ++ js "] [".
Proof.
  intros (Hm & Hd & Hh & Hmi & Hs) Hy.
  assert (Hts : List.length (formatTimestamp t) = 19%nat).
  { unfold formatTimestamp. cbv zeta.
    fold (pad2 (month t + 1)) (pad2 (date t)) (pad2 (hours t)) (pad2 (minutes t))
      (pad2 (seconds t)).
    rewrite !length_app, (year_width _ Hy).
    destruct (pad2_spec (month t + 1)) as (-> & _); [lia|].
    destruct (pad2_spec (date t)) as (-> & _); [lia|].
    destruct (pad2_spec (hours t)) as (-> & _); [lia|].
    destruct (pad2_spec (minutes t)) as (-> & _); [lia|].
    destruct (pad2_spec (seconds t)) as (-> & _); [lia|].
    reflexivity. }
  split; [exact Hts|]. split.
  - unfold getDateString. cbv zeta.
    fold (pad2 (month t + 1)) (pad2 (date t)).
    rewrite !length_app, (year_width _ Hy).
    destruct (pad2_spec (month t + 1)) as (-> & _); [lia|].
    destruct (pad2_spec (date t)) as (-> & _); [lia|].
    reflexivity.
  - intros level message. unfold logMessage.
    change (js "[" ++ formatTimestamp t ++ js "] [" ++ levelName level
              ++ js "] " ++ message)
      with (91%N :: formatTimestamp t ++ js "] [" ++ levelName level
              ++ js "] " ++ message).
    change (js "[" ++ formatTimestamp t ++ js "] [")
      with (91%N :: formatTimestamp t ++ js "] [").
    change 23%nat with (S (19 + 3)). rewrite firstn_cons. f_equal.
    rewrite <- Hts, firstn_app_2. f_equal.
Qed.

End LogText.

Lemma log_file_per_day_witness :
  js "syncr_" ++ LoggerFormat.getDateString Lab.newYear ++ js ".log"
  <> js "syncr_" ++ LoggerFormat.getDateString Lab.christmas ++ js ".log".
Proof.
  intros Heq.
  apply (log_file_per_day Lab.newYear Lab.christmas) in Heq.
  - destruct Heq as (_ & Hmonth & _). discriminate Hmonth.
  - unfold LoggerFormat.validTime. simpl. lia.
  - unfold LoggerFormat.validTime. simpl. lia.
Defined.

Lemma timestamp_width_witness :
  List.length (LoggerFormat.formatTimestamp Lab.christmas) = 19%nat.
Proof.
  apply (timestamp_width Lab.christmas).
  - unfold LoggerFormat.validTime. simpl. lia.
  - simpl. lia.
Defined.

(** ** One log call (logger.ts) *)

Section LogCall.
Context {OS : Type} `{Host OS}.


End LogCall.


(** ** Listing the sources (backup.ts) and validating them one by one
    (config.ts) *)

Section Listing.
Import Config Backup.
Context {OS : Type} `{Host OS}.

Lemma listSources_run (sources : list BackupSource) :
  forall os,
  exists o os' evs,
    listSources sources os = {| outcome := o; host := os'; events := evs |}
    /\ (logsReliably -> o = Ret tt)
    /\ (o = Ret tt ->
        Forall2 (fun s line => exists found, line = listLine s found)
          sources (logged evs)).
Proof.
  induction sources as [|s rest IH]; intros os; cbn [listSources].
  - do 3 eexists. split; [reflexivity|]. split; [reflexivity|]. constructor.
  - unfold bind, existsSync, Logger.info. cbn. log_step.
    + destruct (IH os0) as (o & os' & evs' & -> & Hreturns & Hshown). cbn.
      do 3 eexists. split; [reflexivity|]. split; [exact Hreturns|].
      intros Hret. rewrite logged_app, Hl. cbn [app].
      constructor; [|now apply Hshown].
      now exists (fs_existsSync (path s) os).
    + do 3 eexists. split; [reflexivity|]. split; [|discriminate].
      intros Hlogs. apply (f_equal outcome) in Hlog. rewrite Hlogs in Hlog.
      discriminate Hlog.
Qed.

(** X19.  The listing never ends the process.  When it completes, as it
    does wherever the log can always be written, it has shown every
    configured source, enabled or not, in the order of the configuration,
    one line each with its name, its status, whether its path exists and
    the path. *)
Theorem list_shows_every_source (sources : list BackupSource) (os : OS) :
  (forall c, outcome (listSources sources os) <> Exit c)
  /\ (logsReliably -> outcome (listSources sources os) = Ret tt)
  /\ (outcome (listSources sources os) = Ret tt ->
      Forall2 (fun s line => exists found, line = listLine s found)
        sources (Traces.logged (events (listSources sources os)))).
Proof.
  split; [apply neverExits_listSources|].
  destruct (listSources_run sources os) as (o & os' & evs & -> & Hrest).
  exact Hrest.
Qed.

End Listing.

Lemma list_shows_every_source_witness :
  outcome (Backup.listSources (sources Demo.scenarioConfig) Demo.scenarioOS) = Ret tt
  /\ Forall2 (fun s line => exists found, line = listLine s found)
       (sources Demo.scenarioConfig)
       (logged (events (Backup.listSources (sources Demo.scenarioConfig)
                          Demo.scenarioOS))).
Proof.
  destruct (list_shows_every_source (sources Demo.scenarioConfig) Demo.scenarioOS)
    as (_ & Hreturns & Hshown).
  split; [apply Hreturns | apply Hshown, Hreturns]; apply demo_logs_reliably.
Defined.

Section Elementwise.
Import Config.

Lemma validateSource_index_free (src : JValue) (i j : nat) (out : BackupSource) :
  validateSource src i = Ret out -> validateSource src j = Ret out.
Proof.
  intros Hret. destruct (validateSource_ret _ _ _ Hret) as (Hvalid & _).
  unfold sourceValid in Hvalid.
  repeat (apply andb_true_iff in Hvalid as [Hvalid ?]).
  rewrite (validateSource_object src i Hvalid) in Hret.
  rewrite (validateSource_object src j Hvalid).
  destruct (negb _); [discriminate Hret|].
  destruct (negb _); [discriminate Hret|].
  destruct (negb _); [discriminate Hret | exact Hret].
Qed.

Lemma mapValidateSource_elementwise (items : list JValue) (outs : list BackupSource) :
  forall i,
    mapValidateSource items i = Ret outs
    <-> Forall2 (fun src out => validateSource src 0 = Ret out) items outs.
Proof.
  revert outs. induction items as [|src rest IH]; intros outs i; simpl.
  - split.
    + intros [= <-]. constructor.
    + intros Hall. now inversion Hall.
  - split.
    + destruct (validateSource src i) as [out| |] eqn:Hsrc; try discriminate. simpl.
      destruct (mapValidateSource rest (S i)) as [outs'| |] eqn:Hrest; try discriminate.
      intros [= <-]. constructor.
      * now apply validateSource_index_free with i.
      * now apply (IH outs' (S i)).
    + intros Hall. inversion Hall as [|? out ? outs' Hsrc Hrest]; subst.
      rewrite (validateSource_index_free _ 0 i _ Hsrc). simpl.
      apply (IH outs' (S i)) in Hrest. now rewrite Hrest.
Qed.

(** X20.  Validation looks at each source on its own: a record with a string
    [machine_name] and an array [sources] is accepted exactly when every
    element passes [validateSource], whatever its index and whatever the
    other elements are; so two sources with the same name are accepted. *)
Theorem validation_is_elementwise (data : JValue) (m : jsstring) (items : list JValue)
  (cfg : MachineConfig) :
  isObject data = true ->
  getProp data (js "machine_name") = Some (JStr m) ->
  getProp data (js "sources") = Some (JArr items) ->
  (validateConfig data = Ret cfg
   <-> machine_name cfg = m
       /\ Forall2 (fun src out => validateSource src 0 = Ret out) items (sources cfg)).
Proof.
  intros Hobj Hname Hsources.
  rewrite (validateConfig_object _ Hobj), Hname, Hsources. simpl.
  split.
  - destruct (mapValidateSource items 0) as [outs| |] eqn:Hmap; try discriminate.
    intros [= <-]. simpl. split; [reflexivity|].
    now apply (mapValidateSource_elementwise items outs 0).
  - intros (<- & Hall).
    apply (mapValidateSource_elementwise items (sources cfg) 0) in Hall.
    rewrite Hall. simpl. now destruct cfg.
Qed.

End Elementwise.

Lemma validation_is_elementwise_witness :
  Config.validateConfig Lab.twiceJSON
  = Ret {| machine_name := js "H1"; sources := [Demo.sourceA; Demo.sourceA] |}.
Proof.
  apply (validation_is_elementwise Lab.twiceJSON (js "H1")
           [Demo.sourceJSON "a" "/exists" true; Demo.sourceJSON "a" "/exists" true]);
    try reflexivity.
  split; [reflexivity|]. repeat constructor.
Defined.
